(** * Goomba / Tetromino: a shallow embedding of the emulator core

    The development follows the Go sources package by package:
    - [Go]   : the integer conversions and operators the sources rely on;
    - [Mem]  : the byte-addressed memory seen by the LCD driver;
    - [Lcd]  : [lcd/lcd.go] (mode driver [Tick], tile renderer [drawTiles]);
    - [Gl]   : the GL front end's [renderPixel] / [renderFrame];
    - [Gb]   : the orchestrator ([runFrame], [ButtonAction]);
    - [Spec] : the behaviour the specification words, for comparison;
    - [GbCtl], [LcdTiles], [Palette], [Audio] : the speed controls and main
      loops of [gb], the second tile renderer, the palette of the GL front
      end and the audio clock.

    Unsigned and signed machine integers are integers in [Z] with the
    wrap-around of every conversion written out. A Go [panic] is [None]. *)

From Stdlib Require Import ZArith Lia Bool List.
From Stdlib Require Import SpecFloat.
From stdpp Require Import base option list list_numbers gmap.

Local Open Scope Z_scope.

(** ** Go integer semantics and loops *)

Module Go.

(** [uint8(x)], [uint16(x)]: keep the low bits. *)
Definition uint8 (x : Z) : Z := x `mod` 256.

Definition uint16 (x : Z) : Z := x `mod` 65536.

(** [int8(x)]: two's complement reading of the low eight bits. *)
Definition int8 (x : Z) : Z := (x + 128) `mod` 256 - 128.

(** [int] is 64 bits wide; [x++] on an [int] wraps. *)
Definition int (x : Z) : Z := (x + 2 ^ 63) `mod` 2 ^ 64 - 2 ^ 63.

(** Go's [/] and [%] truncate toward zero. *)
Definition div (x y : Z) : Z := Z.quot x y.

Definition rem (x y : Z) : Z := Z.rem x y.

(** [x &^ y] (bit clear). *)
Definition andnot (x y : Z) : Z := Z.ldiff x y.

(** A loop body that may panic, run over the successive values of the loop
    variable. *)
Fixpoint for_each {S : Type} (l : list Z) (body : Z -> S -> option S) (s : S)
  : option S :=
  match l with
  | [] => Some s
  | i :: l' =>
      match body i s with
      | None => None
      | Some s' => for_each l' body s'
      end
  end.

(** [for i = lo; i < hi; i++ { body }]. None of the loops of the sources
    lets its variable reach the limit of its type, so [i++] never wraps. *)
Definition for_range {S : Type} (lo hi : Z) (body : Z -> S -> option S) (s : S)
  : option S :=
  for_each (seqZ lo (hi - lo)) body s.

(** [a[i] = v] on a fixed-size array: an index out of range panics. *)
Definition store (a : list Z) (i v : Z) : option (list Z) :=
  if (0 <=? i) && (i <? Z.of_nat (length a))
  then Some (<[Z.to_nat i := v]> a)
  else None.

(** [a[i]]. *)
Definition load (a : list Z) (i : Z) : option Z :=
  if 0 <=? i then a !! Z.to_nat i else None.

End Go.

(** ** Memory as the LCD driver sees it *)

Module Mem.

(** Modelled from the spec: the [mem] package is not part of the sources.
    [Memory.Read(addr)] hands out a pointer to the byte at [addr]; loads
    and stores through that pointer are [Read] and [Write] on a finite map
    from 16-bit addresses to cells, an absent cell reading as zero. A cell
    is a byte: [Read] returns its low eight bits. *)
Definition Read (memory : gmap Z Z) (addr : Z) : Z :=
  Go.uint8 (default 0 (memory !! addr)).

Definition Write (memory : gmap Z Z) (addr : Z) (v : Z) : gmap Z Z :=
  <[addr := v]> memory.

(** Modelled from the spec: the register addresses [mem.IF], [mem.STAT]
    and [mem.LY] (the constants are declared in the absent package), and
    the other video registers of 0xFF40-0xFF4B. *)
Definition IF : Z := 0xff0f.

Definition LCDC : Z := 0xff40.

Definition STAT : Z := 0xff41.

Definition SCY : Z := 0xff42.

Definition SCX : Z := 0xff43.

Definition LY : Z := 0xff44.

Definition BGP : Z := 0xff47.

End Mem.

(** ** The LCD driver, [lcd/lcd.go] *)

Module Lcd.
Import Go Mem.

(** The [const] block: [bit7 = 1 << 0] up to [bit0 = 1 << 7]. *)
Definition bit7 : Z := Z.shiftl 1 0.

Definition bit6 : Z := Z.shiftl 1 1.

Definition bit5 : Z := Z.shiftl 1 2.

Definition bit4 : Z := Z.shiftl 1 3.

Definition bit3 : Z := Z.shiftl 1 4.

Definition bit2 : Z := Z.shiftl 1 5.

Definition bit1 : Z := Z.shiftl 1 6.

Definition bit0 : Z := Z.shiftl 1 7.

(** [type LCD struct { data [23040]uint8 }] *)
Record LCD := { data : list Z }.

Definition NewLCD : LCD := {| data := replicate (Z.to_nat 23040) 0 |}.

(** *** [Tick] *)

(** [updateLcdLine] has an empty body. *)
Definition updateLcdLine (ly : Z) : unit := tt.

(** First [switch] of [Tick]: the mode, and the V-Blank request on
    [mem.IF]. [None] is the [panic] of the [default] case. *)
Definition Tick_mode (memory : gmap Z Z) (ly lyRemainder : Z)
  : option (Z * gmap Z Z) :=
  if ly =? 144 then
    Some (1, Write memory IF (Z.lor (Read memory IF) 0x01))
  else if ly >? 144 then Some (1, memory)
  else if lyRemainder <? 20 then Some (2, memory)
  else if lyRemainder <? 63 then Some (3, memory)
  else if lyRemainder <? 114 then
    let _ := updateLcdLine ly in Some (0, memory)
  else None.

(** The coincidence test against the byte at 0xff45. *)
Definition Tick_coincidence (memory : gmap Z Z) (ly stat : Z) : Z :=
  if ly =? uint8 (Read memory 0xff45) then Z.lor stat 0x44
  else andnot stat 0x44.

(** Second [switch] of [Tick]. *)
Definition Tick_interrupts (ly lyRemainder stat : Z) : Z :=
  if ly =? 144 then Z.lor stat 0x10
  else if lyRemainder =? 0 then Z.lor stat 0x20
  else if lyRemainder =? 63 then Z.lor stat 0x08
  else stat.

(** The mode that the first [switch] selects when it does not panic. *)
Definition mode_of (ly lyRemainder : Z) : Z :=
  if ly =? 144 then 1
  else if ly >? 144 then 1
  else if lyRemainder <? 20 then 2
  else if lyRemainder <? 63 then 3
  else 0.

Definition Tick (memory : gmap Z Z) (cycle : Z) : option (gmap Z Z) :=
  let ly := uint8 (div cycle 114) in
  let lyRemainder := rem cycle 114 in
  match Tick_mode memory ly lyRemainder with
  | None => None
  | Some (stat, memory) =>
      let stat := Tick_coincidence memory ly stat in
      let stat := Tick_interrupts ly lyRemainder stat in
      Some (Write (Write memory STAT stat) LY ly)
  end.

(** *** Tiles *)

(** Modelled from the spec: [highBgTileMapDisplaySelect] and
    [lowTileDataSelect] are helpers of the package that the sources do not
    include; the spec selects the tile map with LCDC bit 3 and the tile data
    area with LCDC bit 4. *)
Definition highBgTileMapDisplaySelect (mem : gmap Z Z) : bool :=
  Z.testbit (Read mem LCDC) 3.

Definition lowTileDataSelect (mem : gmap Z Z) : bool :=
  Z.testbit (Read mem LCDC) 4.

Definition lowTileAbsoluteAddress (tileNumber : Z) : Z :=
  uint16 (0x8000 + uint16 tileNumber * 16).

Definition highTileAbsoluteAddress (tileNumber : Z) : Z :=
  uint16 (0x9000 + tileNumber * 16).

Definition pixel (mem : gmap Z Z) (memoryAddr bit : Z) : option Z :=
  let a := uint8 (Read mem memoryAddr) in
  let b := uint8 (Read mem (uint16 (memoryAddr + 1))) in
  match bit with
  | 0 => Some (Z.lor (Z.shiftr (Z.land a bit0) 7) (Z.shiftr (Z.land b bit0) 6))
  | 1 => Some (Z.lor (Z.shiftr (Z.land a bit1) 6) (Z.shiftr (Z.land b bit1) 5))
  | 2 => Some (Z.lor (Z.shiftr (Z.land a bit2) 5) (Z.shiftr (Z.land b bit2) 4))
  | 3 => Some (Z.lor (Z.shiftr (Z.land a bit3) 4) (Z.shiftr (Z.land b bit3) 3))
  | 4 => Some (Z.lor (Z.shiftr (Z.land a bit4) 3) (Z.shiftr (Z.land b bit4) 2))
  | 5 => Some (Z.lor (Z.shiftr (Z.land a bit5) 2) (Z.shiftr (Z.land b bit5) 1))
  | 6 => Some (Z.lor (Z.shiftr (Z.land a bit6) 1) (Z.land b bit6))
  | 7 => Some (Z.lor (Z.land a bit7) (uint8 (Z.shiftl (Z.land b bit7) 1)))
  | _ => None
  end.

(** Returns the memory address of the tile. *)
Definition tileDataAddr (mem : gmap Z Z) (tileX tileY : Z) : Z :=
  let tileIndex := uint16 (uint16 tileY * 32 + uint16 tileX) in
  let tileNumberAddr :=
    if highBgTileMapDisplaySelect mem then uint16 (0x9c00 + tileIndex)
    else uint16 (0x9800 + tileIndex) in
  let tileNumber := Read mem tileNumberAddr in
  if lowTileDataSelect mem then lowTileAbsoluteAddress tileNumber
  else highTileAbsoluteAddress (int8 tileNumber).

(** The colour that one iteration of the inner loop of [drawTiles] computes
    for the LCD position ([lcdX], [lcdY]). *)
Definition drawTiles_pixel (mem : gmap Z Z) (lcdY lcdX : Z) : option Z :=
  let scrX := 0 in
  let scrY := 0 in
  let vramX := uint8 (lcdX + scrX) in
  let vramY := uint8 (lcdY + scrY) in
  let tileX := div vramX 8 in
  let tileY := div vramY 8 in
  let tileAddr := tileDataAddr mem tileX tileY in
  let tileOffsetX := rem vramX 8 in
  let tileOffsetY := rem vramY 8 in
  let memoryAddr := uint16 (tileAddr + uint16 tileOffsetY * 2) in
  pixel mem memoryAddr tileOffsetX.

(** The body of the inner loop of [drawTiles]. *)
Definition drawTiles_body (mem : gmap Z Z) (lcdY lcdX : Z) (data : list Z)
  : option (list Z) :=
  let index := uint16 (uint16 lcdY * 160 + uint16 lcdX) in
  match drawTiles_pixel mem lcdY lcdX with
  | None => None
  | Some p => store data index p
  end.

(** The array index of the LCD position ([lcdX], [lcdY]). *)
Definition index_of (lcdY lcdX : Z) : nat := Z.to_nat (lcdY * 160 + lcdX).

Definition drawTiles (lcd : LCD) (mem : gmap Z Z) : option LCD :=
  match
    for_range 0 144 (fun lcdY =>
      for_range 0 160 (fun lcdX => drawTiles_body mem lcdY lcdX)) (data lcd)
  with
  | None => None
  | Some d => Some {| data := d |}
  end.

(** [FrameData] returns the frame data (and leaves it in the LCD). *)
Definition FrameData (lcd : LCD) (mem : gmap Z Z) : option (list Z) :=
  match drawTiles lcd mem with
  | None => None
  | Some lcd' => Some (data lcd')
  end.

End Lcd.

(** ** The GL front end: [renderPixel] and [renderFrame] *)

Module Gl.
Import Go.

(** [color.RGBA] *)
Record RGBA := mkRGBA { cR : Z; cG : Z; cB : Z; cA : Z }.

(** [image.RGBA] over the rectangle [0,width) x [0,height): the pixels
    that were set; every other pixel still is the zero colour. *)
Record Image := { width : Z; height : Z; pix : gmap (Z * Z) RGBA }.

Definition NewRGBA (w h : Z) : Image :=
  {| width := w; height := h; pix := ∅ |}.

(** [im.SetRGBA(x, y, c)] ignores a point outside the rectangle. *)
Definition SetRGBA (im : Image) (x y : Z) (c : RGBA) : Image :=
  if (0 <=? x) && (x <? width im) && (0 <=? y) && (y <? height im)
  then {| width := width im; height := height im;
          pix := <[(x, y) := c]> (pix im) |}
  else im.

Definition At (im : Image) (x y : Z) : RGBA :=
  default (mkRGBA 0 0 0 0) (pix im !! (x, y)).

Definition renderPixel (im : Image) (x y : Z) (pixel : Z) : option Image :=
  match pixel with
  | 0x00 => Some (SetRGBA im x y (mkRGBA 0xff 0xff 0xff 0xff))
  | 0x01 => Some (SetRGBA im x y (mkRGBA 0xaa 0xaa 0xaa 0xff))
  | 0x02 => Some (SetRGBA im x y (mkRGBA 0x77 0x77 0x77 0xff))
  | 0x03 => Some (SetRGBA im x y (mkRGBA 0x33 0x33 0x33 0xff))
  | 0x10 => Some (SetRGBA im x y (mkRGBA 0xff 0xaa 0xaa 0xff))
  | 0x11 => Some (SetRGBA im x y (mkRGBA 0xaa 0x77 0x77 0xff))
  | 0x12 => Some (SetRGBA im x y (mkRGBA 0x77 0x33 0x33 0xff))
  | 0x13 => Some (SetRGBA im x y (mkRGBA 0x33 0x00 0x00 0xff))
  | 0x20 => Some (SetRGBA im x y (mkRGBA 0xaa 0xff 0xaa 0xff))
  | 0x21 => Some (SetRGBA im x y (mkRGBA 0x77 0xaa 0x77 0xff))
  | 0x22 => Some (SetRGBA im x y (mkRGBA 0x33 0x77 0x33 0xff))
  | 0x23 => Some (SetRGBA im x y (mkRGBA 0x00 0x33 0x00 0xff))
  | 0x30 => Some (SetRGBA im x y (mkRGBA 0xaa 0xaa 0xff 0xff))
  | 0x31 => Some (SetRGBA im x y (mkRGBA 0x77 0x77 0xaa 0xff))
  | 0x32 => Some (SetRGBA im x y (mkRGBA 0x33 0x33 0x77 0xff))
  | 0x33 => Some (SetRGBA im x y (mkRGBA 0x00 0x00 0x33 0xff))
  | _ => None
  end.

(** The body of the inner loop of [renderFrame]. *)
Definition renderFrame_body (data : list Z) (y x : Z) (im : Image)
  : option Image :=
  match load data (y * 160 + x) with
  | None => None
  | Some pixel => renderPixel im x y pixel
  end.

Definition renderFrame (data : list Z) : option Image :=
  let im := NewRGBA 160 144 in
  for_range 0 144 (fun y =>
    for_range 0 160 (fun x => renderFrame_body data y x)) im.

End Gl.

(** ** The orchestrator, package [gb] *)

Module Gb.
Import Go.

(** [ui.Button] *)
Inductive Button :=
  | ui_Start | ui_Select | ui_A | ui_B | ui_Up | ui_Down | ui_Left | ui_Right.

(** [b == ui.Start] and the like. *)
Definition Button_eqb (b1 b2 : Button) : bool :=
  match b1, b2 with
  | ui_Start, ui_Start | ui_Select, ui_Select | ui_A, ui_A | ui_B, ui_B
  | ui_Up, ui_Up | ui_Down, ui_Down | ui_Left, ui_Left
  | ui_Right, ui_Right => true
  | _, _ => false
  end.

(** The packages [cpu], [mem], [timer] and [lcd] that [gb] drives are not
    part of the sources: their state is kept abstract. *)
Class DeviceTypes := {
  Cpu : Type;       (* what [*cpu.Dispatch] owns *)
  Cells : Type;     (* the rest of [mem.Memory] *)
  Timer : Type;     (* [*timer.Timer] *)
  LcdState : Type;  (* [*lcd.LCD] *)
  Frame : Type;     (* [*image.RGBA] *)
  Gui : Type        (* implementations of the [gui] interface *)
}.

(** The fields of [mem.Memory] that [gb] reads and writes. *)
Record Memory `{DeviceTypes} := {
  IF : Z;
  ButtonInput : Z;
  DirectionInput : Z;
  cells : Cells
}.

(** The devices hold pointers to one another (the CPU and the LCD to the
    memory, the memory to the timer): a method of one may change any. *)
Record Hardware `{DeviceTypes} := {
  dispatch : Cpu;
  memory : Memory;
  timer : Timer;
  lcd : LcdState
}.

(** [type Gameboy struct]; [start], [opts] and [cancel] play no part. *)
Record Gameboy `{DeviceTypes} := {
  hw : Hardware;
  dur : Z;
  frame : Z
}.

(** The methods of the absent packages. [Start] is the one that the
    comment in [ButtonAction] describes as starting the CPU: it acts on the
    CPU only. *)
Class Devices `{DeviceTypes} := {
  dispatch_ExecuteMachineCycle : Hardware -> Hardware;
  dispatch_Start : Cpu -> Cpu;
  memory_ExecuteMachineCycle : Hardware -> Hardware;
  lcd_EndMachineCycle : Hardware -> Hardware;
  lcd_FrameEnd : Hardware -> Hardware;
  lcd_Frame : LcdState -> Frame;
  timer_EndMachineCycle : Hardware -> Hardware * bool
}.

(** What the orchestrator asks of its collaborators, in order. *)
Inductive Call `{DeviceTypes} :=
  | Call_dispatch_ExecuteMachineCycle
  | Call_memory_ExecuteMachineCycle
  | Call_lcd_EndMachineCycle
  | Call_timer_EndMachineCycle
  | Call_audio_EndMachineCycle
  | Call_lcd_FrameEnd
  | Call_gui_DrawFrame (image : Frame)
  | Call_time_Sleep (deadline : Z)
  | Call_dispatch_Start.

(** A method of [*Gameboy]: it updates the Gameboy and logs its calls. *)
Definition M `{DeviceTypes} (A : Type) : Type :=
  Gameboy -> A * Gameboy * list Call.

#[global] Instance M_ret `{DeviceTypes} : MRet M :=
  fun A (a : A) gb => (a, gb, []).

#[global] Instance M_bind `{DeviceTypes} : MBind M :=
  fun A B (k : A -> M B) (m : M A) gb =>
    let '(a, gb1, calls1) := m gb in
    let '(b, gb2, calls2) := k a gb1 in
    (b, gb2, calls1 ++ calls2).

Definition call `{DeviceTypes} (c : Call) : M unit :=
  fun gb => (tt, gb, [c]).

Definition getGb `{DeviceTypes} : M Gameboy :=
  fun gb => (gb, gb, []).

Definition onHardware `{DeviceTypes} (f : Hardware -> Hardware) : M unit :=
  fun gb => (tt, {| hw := f (hw gb); dur := dur gb; frame := frame gb |}, []).

Definition askHardware `{DeviceTypes} {A : Type} (f : Hardware -> Hardware * A)
  : M A :=
  fun gb =>
    let '(h, a) := f (hw gb) in
    (a, {| hw := h; dur := dur gb; frame := frame gb |}, []).

Definition onFrame `{DeviceTypes} (f : Z -> Z) : M unit :=
  fun gb => (tt, {| hw := hw gb; dur := dur gb; frame := f (frame gb) |}, []).

Definition onMemory `{DeviceTypes} (f : Memory -> Memory) : M unit :=
  onHardware (fun h =>
    {| dispatch := dispatch h; memory := f (memory h);
       timer := timer h; lcd := lcd h |}).

Definition onCpu `{DeviceTypes} (f : Cpu -> Cpu) : M unit :=
  onHardware (fun h =>
    {| dispatch := f (dispatch h); memory := memory h;
       timer := timer h; lcd := lcd h |}).

Definition set_IF `{DeviceTypes} (f : Z -> Z) (m : Memory) : Memory :=
  {| IF := f (IF m); ButtonInput := ButtonInput m;
     DirectionInput := DirectionInput m; cells := cells m |}.

Definition set_ButtonInput `{DeviceTypes} (f : Z -> Z) (m : Memory) : Memory :=
  {| IF := IF m; ButtonInput := f (ButtonInput m);
     DirectionInput := DirectionInput m; cells := cells m |}.

Definition set_DirectionInput `{DeviceTypes} (f : Z -> Z) (m : Memory)
  : Memory :=
  {| IF := IF m; ButtonInput := ButtonInput m;
     DirectionInput := f (DirectionInput m); cells := cells m |}.

(** [for i := lo; i < hi; i++ { body }] in a method. *)
Fixpoint for_each `{DeviceTypes} (l : list Z) (body : Z -> M unit) : M unit :=
  match l with
  | [] => mret tt
  | i :: l' => body i ;; for_each l' body
  end.

Definition for_range `{DeviceTypes} (lo hi : Z) (body : Z -> M unit)
  : M unit :=
  for_each (seqZ lo (hi - lo)) body.

Section Orchestrator.
Context `{Devices}.

(** One iteration of the loop of [runFrame]. *)
Definition machineCycle : M unit :=
  call Call_dispatch_ExecuteMachineCycle ;;
  onHardware dispatch_ExecuteMachineCycle ;;
  call Call_memory_ExecuteMachineCycle ;;
  onHardware memory_ExecuteMachineCycle ;;
  call Call_lcd_EndMachineCycle ;;
  onHardware lcd_EndMachineCycle ;;
  call Call_timer_EndMachineCycle ;;
  timerInterruptRequested ← askHardware timer_EndMachineCycle ;
  if (timerInterruptRequested : bool)
  then onMemory (set_IF (fun v => Z.lor v 0x04))
  else mret tt.

Definition runFrame (gui : option Gui) (deadline : Z) : M unit :=
  for_range 0 17556 (fun mtick => machineCycle) ;;
  call Call_lcd_FrameEnd ;;
  onHardware lcd_FrameEnd ;;
  match gui with
  | Some _ => gb ← getGb ; call (Call_gui_DrawFrame (lcd_Frame (lcd (hw gb))))
  | None => mret tt
  end ;;
  call (Call_time_Sleep deadline) ;;
  onFrame (fun frame => int (frame + 1)).

(** What one iteration of the loop does to the devices: the four steps in
    the order of the source, and bit 2 of the interrupt flags on request of
    the timer. *)
Definition cycle_hardware (h : Hardware) : Hardware :=
  let h1 := dispatch_ExecuteMachineCycle h in
  let h2 := memory_ExecuteMachineCycle h1 in
  let h3 := lcd_EndMachineCycle h2 in
  let '(h4, requested) := timer_EndMachineCycle h3 in
  if (requested : bool) then
    {| dispatch := dispatch h4;
       memory := set_IF (fun v => Z.lor v 0x04) (memory h4);
       timer := timer h4; lcd := lcd h4 |}
  else h4.

(** The devices after the 17556 iterations and [FrameEnd]. *)
Definition frame_hardware (h : Hardware) : Hardware :=
  lcd_FrameEnd (Nat.iter (Z.to_nat 17556) cycle_hardware h).

(** [ButtonAction] turns UI key presses into emulator button presses. *)
Definition ButtonAction (b : Button) (pressed : bool) : M unit :=
  call Call_dispatch_Start ;;
  onCpu dispatch_Start ;;
  (if Button_eqb b ui_Start then
     if pressed then onMemory (set_ButtonInput (fun v => andnot v 0x8))
     else onMemory (set_ButtonInput (fun v => Z.lor v 0x8))
   else if Button_eqb b ui_Select then
     if pressed then onMemory (set_ButtonInput (fun v => andnot v 0x4))
     else onMemory (set_ButtonInput (fun v => Z.lor v 0x4))
   else mret tt) ;;
  (if Button_eqb b ui_B then
     if pressed then onMemory (set_ButtonInput (fun v => andnot v 0x2))
     else onMemory (set_ButtonInput (fun v => Z.lor v 0x2))
   else mret tt) ;;
  (if Button_eqb b ui_A then
     if pressed then onMemory (set_ButtonInput (fun v => andnot v 0x1))
     else onMemory (set_ButtonInput (fun v => Z.lor v 0x1))
   else mret tt) ;;
  (if Button_eqb b ui_Down then
     if pressed then onMemory (set_DirectionInput (fun v => andnot v 0x8))
     else onMemory (set_DirectionInput (fun v => Z.lor v 0x8))
   else if Button_eqb b ui_Up then
     if pressed then onMemory (set_DirectionInput (fun v => andnot v 0x4))
     else onMemory (set_DirectionInput (fun v => Z.lor v 0x4))
   else mret tt) ;;
  (if Button_eqb b ui_Left then
     if pressed then onMemory (set_DirectionInput (fun v => andnot v 0x2))
     else onMemory (set_DirectionInput (fun v => Z.lor v 0x2))
   else if Button_eqb b ui_Right then
     if pressed then onMemory (set_DirectionInput (fun v => andnot v 0x1))
     else onMemory (set_DirectionInput (fun v => Z.lor v 0x1))
   else mret tt).

End Orchestrator.

(** Counting the calls of one kind in a log. *)
Definition count `{DeviceTypes} (p : Call -> bool) (calls : list Call) : nat :=
  length (List.filter p calls).

Definition is_dispatch_ExecuteMachineCycle `{DeviceTypes} (c : Call) : bool :=
  match c with Call_dispatch_ExecuteMachineCycle => true | _ => false end.

Definition is_memory_ExecuteMachineCycle `{DeviceTypes} (c : Call) : bool :=
  match c with Call_memory_ExecuteMachineCycle => true | _ => false end.

Definition is_lcd_EndMachineCycle `{DeviceTypes} (c : Call) : bool :=
  match c with Call_lcd_EndMachineCycle => true | _ => false end.

Definition is_timer_EndMachineCycle `{DeviceTypes} (c : Call) : bool :=
  match c with Call_timer_EndMachineCycle => true | _ => false end.

Definition is_audio_EndMachineCycle `{DeviceTypes} (c : Call) : bool :=
  match c with Call_audio_EndMachineCycle => true | _ => false end.

Definition is_lcd_FrameEnd `{DeviceTypes} (c : Call) : bool :=
  match c with Call_lcd_FrameEnd => true | _ => false end.

Definition is_gui_DrawFrame `{DeviceTypes} (c : Call) : bool :=
  match c with Call_gui_DrawFrame _ => true | _ => false end.

Definition is_dispatch_Start `{DeviceTypes} (c : Call) : bool :=
  match c with Call_dispatch_Start => true | _ => false end.

(** The calls of one iteration of the loop of [runFrame]. *)
Definition cycle_calls `{DeviceTypes} : list Call :=
  [Call_dispatch_ExecuteMachineCycle; Call_memory_ExecuteMachineCycle;
   Call_lcd_EndMachineCycle; Call_timer_EndMachineCycle].

(** An interrupt is raised when its bit of the interrupt flags goes from 0
    to 1; the joypad has bit 4. *)
Definition joypad_raised (before after : Z) : nat :=
  if negb (Z.testbit before 4) && Z.testbit after 4 then 1%nat else 0%nat.

(** Projections of a run. *)
Definition stateOf `{DeviceTypes} {A : Type} (r : A * Gameboy * list Call)
  : Gameboy := snd (fst r).

Definition callsOf `{DeviceTypes} {A : Type} (r : A * Gameboy * list Call)
  : list Call := snd r.

End Gb.

(** ** A machine to run the orchestrator on *)

Module Idle.
Import Gb.

(** Modelled from the spec: the CPU's run mode (section 3), and [Start]
    leaving [Stopped] on a button event (sections 4.1 and 4.6). The [cpu]
    package is not part of the sources. *)
Inductive RunMode := Running | Halted | Stopped.

(** Modelled from the spec: "A key press while in STOP mode exits STOP";
    the other modes are left as they are. *)
Definition Start (mode : RunMode) : RunMode :=
  match mode with
  | Stopped => Running
  | _ => mode
  end.

(** A machine whose devices are at rest: a machine cycle changes nothing
    and the timer never requests an interrupt. *)
#[global] Instance types : DeviceTypes := {|
  Cpu := RunMode; Cells := unit; Timer := unit; LcdState := unit;
  Frame := unit; Gui := unit
|}.

#[global] Instance devices : Devices := {|
  dispatch_ExecuteMachineCycle := fun h => h;
  dispatch_Start := Start;
  memory_ExecuteMachineCycle := fun h => h;
  lcd_EndMachineCycle := fun h => h;
  lcd_FrameEnd := fun h => h;
  lcd_Frame := fun _ => tt;
  timer_EndMachineCycle := fun h => (h, false)
|}.

(** The machine, stopped, with no key held (the nibbles are active-low). *)
Definition stopped : Gameboy := {|
  hw := {| dispatch := Stopped;
           memory := {| IF := 0; ButtonInput := 0xf; DirectionInput := 0xf;
                        cells := tt |};
           timer := tt; lcd := tt |};
  dur := 0;
  frame := 0
|}.

End Idle.

(** ** Sample memories *)

Module Sample.
Import Mem.

(** A tile map whose first entry names tile 1, and a tile 1 whose first
    row is 0x80, 0x80: the top left pixel has colour index 3. LCDC selects
    the map at 0x9800 and the tile data at 0x8000. *)
Definition one_dark_pixel : gmap Z Z :=
  <[0x8011 := 0x80]> (<[0x8010 := 0x80]> (<[0x9800 := 1]>
    (<[LCDC := 0x11]> ∅))).

(** Background on, empty video memory, and a palette BGP that maps colour
    0 to shade 3. *)
Definition dark_palette : gmap Z Z :=
  <[BGP := 0x03]> (<[LCDC := 0x01]> ∅).

(** The CPU has set every enable bit of STAT (bits 3 to 6); LYC is 0. *)
Definition stat_enabled : gmap Z Z := <[STAT := 0x78]> ∅.

End Sample.

(** ** What the specification words *)

Module Spec.
Import Go Mem.

(** Section 4.3, the mode as a function of the position in the frame. *)
Definition lcd_mode (ly lx : Z) : Z :=
  if (ly <? 144) && (lx <? 80) then 2
  else if (ly <? 144) && (lx <? 80 + 172) then 3
  else if ly <? 144 then 0
  else 1.

(** Section 4.3: "if STAT bit 6 is set and coincidence holds, raise STAT
    interrupt" (interrupt-flag bit 1), for the tick of [cycle]. *)
Definition coincidence_interrupt (memory : gmap Z Z) (cycle : Z) : Prop :=
  Z.testbit (Read memory STAT) 6 = true ->
  uint8 (div cycle 114) = Read memory 0xff45 ->
  exists memory', Lcd.Tick memory cycle = Some memory' /\
                  Z.testbit (Read memory' IF) 1 = true.

(** Section 4.1: the CPU servicing the V-Blank interrupt clears bit 0 of
    the interrupt flags. *)
Definition acknowledge_vblank (memory : gmap Z Z) : gmap Z Z :=
  Write memory IF (andnot (Read memory IF) 0x01).

(** Section 4.3, step 1 of the rendering: the colour index of the
    background at column [x] of line [ly]. *)
Definition bg_colour_index (mem : gmap Z Z) (x ly : Z) : Z :=
  let bx := Z.land (x + Read mem SCX) 0xFF in
  let by_ := Z.land (ly + Read mem SCY) 0xFF in
  let map_base := if Z.testbit (Read mem LCDC) 3 then 0x9C00 else 0x9800 in
  let idx := Read mem (map_base + by_ / 8 * 32 + bx / 8) in
  let tile :=
    if Z.testbit (Read mem LCDC) 4 then 0x8000 + idx * 16
    else 0x9000 + int8 idx * 16 in
  let row := tile + 2 * (by_ `mod` 8) in
  let b0 := Z.b2z (Z.testbit (Read mem row) (7 - bx `mod` 8)) in
  let b1 := Z.b2z (Z.testbit (Read mem (row + 1)) (7 - bx `mod` 8)) in
  Z.lor (Z.shiftl b1 1) b0.

(** The claim on the rendered background: with LCDC bit 0 set, every
    pixel of the frame data is the shade [bg_shade] below, the colour index
    taken through the palette BGP. *)
Definition palette (reg idx : Z) : Z := Z.land (Z.shiftr reg (2 * idx)) 3.

Definition bg_shade (mem : gmap Z Z) (x ly : Z) : Z :=
  palette (Read mem BGP) (bg_colour_index mem x ly).

Definition background_rendered (lcd : Lcd.LCD) (mem : gmap Z Z) : Prop :=
  Z.testbit (Read mem LCDC) 0 = true ->
  forall x ly, 0 <= x < 160 -> 0 <= ly < 144 ->
    exists d, Lcd.FrameData lcd mem = Some d /\
              d !! Lcd.index_of ly x = Some (bg_shade mem x ly).

(** Section 6, the frame output: the four grey levels, and one more step
    down for the channels that a debug tint does not favour. *)
Definition level (shade : Z) : Z :=
  match shade with
  | 0 => 0xff
  | 1 => 0xaa
  | 2 => 0x77
  | 3 => 0x33
  | _ => 0x00
  end.

(** The colour of a frame byte: [shade] is its low two bits, [tint] its
    bits 4-5 (0 none, 1 red, 2 green, 3 blue). *)
Definition colour (shade tint : Z) : Gl.RGBA :=
  match tint with
  | 1 => Gl.mkRGBA (level shade) (level (shade + 1)) (level (shade + 1)) 0xff
  | 2 => Gl.mkRGBA (level (shade + 1)) (level shade) (level (shade + 1)) 0xff
  | 3 => Gl.mkRGBA (level (shade + 1)) (level (shade + 1)) (level shade) 0xff
  | _ => Gl.mkRGBA (level shade) (level shade) (level shade) 0xff
  end.

(** "Red-biased", "green-biased", "blue-biased": the favoured channel is
    brighter than the two others; without a tint the colour is a grey. *)
Definition biased (tint : Z) (c : Gl.RGBA) : Prop :=
  match tint with
  | 1 => Gl.cG c < Gl.cR c /\ Gl.cB c < Gl.cR c
  | 2 => Gl.cR c < Gl.cG c /\ Gl.cB c < Gl.cG c
  | 3 => Gl.cR c < Gl.cB c /\ Gl.cG c < Gl.cB c
  | _ => Gl.cR c = Gl.cG c /\ Gl.cG c = Gl.cB c
  end.

(** Section 5: one machine-cycle tick advances CPU, memory (DMA), LCD,
    timer and audio, in this order. *)
Definition machineCycle `{Gb.Devices} : Gb.M unit :=
  Gb.call Gb.Call_dispatch_ExecuteMachineCycle ;;
  Gb.onHardware Gb.dispatch_ExecuteMachineCycle ;;
  Gb.call Gb.Call_memory_ExecuteMachineCycle ;;
  Gb.onHardware Gb.memory_ExecuteMachineCycle ;;
  Gb.call Gb.Call_lcd_EndMachineCycle ;;
  Gb.onHardware Gb.lcd_EndMachineCycle ;;
  Gb.call Gb.Call_timer_EndMachineCycle ;;
  timerInterruptRequested ← Gb.askHardware Gb.timer_EndMachineCycle ;
  (if (timerInterruptRequested : bool)
   then Gb.onMemory (Gb.set_IF (fun v => Z.lor v 0x04))
   else mret tt) ;;
  Gb.call Gb.Call_audio_EndMachineCycle.

(** Section 8, property 4: a frame iteration ends the frame once and
    publishes it once. *)
Definition one_frame_published `{Gb.DeviceTypes} (calls : list Gb.Call)
  : Prop :=
  Gb.count Gb.is_lcd_FrameEnd calls = 1%nat /\
  Gb.count Gb.is_gui_DrawFrame calls = 1%nat.

End Spec.

(** ** The joypad lines, speed controls and main loops of package [gb] *)

Module GbCtl.
Import Go Gb.

(** The comment in [ButtonAction]: bit 3 is Down or Start, bit 2 Up or
    Select, bit 1 Left or B, bit 0 Right or A. [true] stands for the nibble
    [ButtonInput], [false] for [DirectionInput]. *)
Definition line (b : Button) : bool * Z :=
  match b with
  | ui_Start => (true, 3)
  | ui_Select => (true, 2)
  | ui_B => (true, 1)
  | ui_A => (true, 0)
  | ui_Down => (false, 3)
  | ui_Up => (false, 2)
  | ui_Left => (false, 1)
  | ui_Right => (false, 0)
  end.

(** What an event of button [b] does to the memory: its line goes low
    when the button is pressed and high when it is released. *)
Definition set_line `{DeviceTypes} (b : Button) (pressed : bool) (m : Memory)
  : Memory :=
  let mask := Z.shiftl 1 (snd (line b)) in
  let f := fun v => if pressed then andnot v mask else Z.lor v mask in
  if fst (line b) then set_ButtonInput f m else set_DirectionInput f m.

(** [const frameDuration = float64(16742706)], as the [time.Duration] that
    [NewGameboy] converts it to. *)
Definition frameDuration : Z := 16742706.

(** [NewGameboy], given the devices that the constructors of the absent
    packages return. *)
Definition NewGameboy `{DeviceTypes} (fast : bool) (devices : Hardware)
  : Gameboy :=
  let duration := frameDuration in
  let duration := if fast then 0 else duration in
  {| hw := devices; dur := duration; frame := 0 |}.

Definition onDur `{DeviceTypes} (f : Z -> Z) : M unit :=
  fun gb => (tt, {| hw := hw gb; dur := f (dur gb); frame := frame gb |}, []).

(** [gb.dur /= 2] *)
Definition Faster `{DeviceTypes} : M unit := onDur (fun dur => div dur 2).

(** [gb.dur *= 2], on a 64-bit [time.Duration]. *)
Definition Slower `{DeviceTypes} : M unit := onDur (fun dur => int (dur * 2)).

(** The speed keys of the UI. *)
Inductive Speed := KeyFaster | KeySlower.

Definition speed `{DeviceTypes} (k : Speed) : M unit :=
  match k with
  | KeyFaster => Faster
  | KeySlower => Slower
  end.

Fixpoint speeds `{DeviceTypes} (ks : list Speed) : M unit :=
  match ks with
  | [] => mret tt
  | k :: ks' => speed k ;; speeds ks'
  end.

(** The deadlines that a run slept until, in order. *)
Definition sleeps `{DeviceTypes} (calls : list Call) : list Z :=
  omap (fun c => match c with Call_time_Sleep d => Some d | _ => None end)
       calls.

(** The frames that a loop runs on the answers [polls] of [ctx.Done()]:
    one for each answer before the first [true]. *)
Fixpoint frames_polled (polls : list bool) : nat :=
  match polls with
  | false :: polls' => S (frames_polled polls')
  | _ => O
  end.

(** How a loop that polls [ctx.Done()] ends: it returned, or the polls
    that the environment has answered so far ran out while it still ran. *)
Inductive Outcome := Returned | Running.

Section Loops.
Context `{Devices}.

(** One pass through the [select] of [Run] and [Time]: [done] is the answer
    of [ctx.Done()], [deadline] is the variable [end], a [time.Time] counted
    in nanoseconds. [None] is the [return]. *)
Definition frame_or_return (done : bool) (gui : option Gui) (deadline : Z)
  : M (option Z) :=
  if done then mret None
  else
    gb ← getGb ;
    let deadline := deadline + dur gb in
    runFrame gui deadline ;;
    mret (Some deadline).

(** The loop of [Run], one answer of [ctx.Done()] for each pass. *)
Fixpoint Run_loop (polls : list bool) (gui : option Gui) (deadline : Z)
  : M Outcome :=
  match polls with
  | [] => mret Running
  | done :: polls' =>
      r ← frame_or_return done gui deadline ;
      match r with
      | None => mret Returned
      | Some deadline' => Run_loop polls' gui deadline'
      end
  end.

(** [Run]; [now] is the answer of [time.Now()]. *)
Definition Run (polls : list bool) (gui : option Gui) (now : Z) : M Outcome :=
  Run_loop polls gui now.

(** The inner loop of [Time] from the value [i] of its variable on:
    [for ; i < 60; i++]. It gives back the polls and the deadline that are
    left when the block is complete. *)
Fixpoint Time_block (n : nat) (polls : list bool) (gui : option Gui)
    (deadline : Z) : M (Outcome + list bool * Z) :=
  match n with
  | O => mret (inr (polls, deadline))
  | S n' =>
      match polls with
      | [] => mret (inl Running)
      | done :: polls' =>
          r ← frame_or_return done gui deadline ;
          match r with
          | None => mret (inl Returned)
          | Some deadline' => Time_block n' polls' gui deadline'
          end
      end
  end.

(** The outer loop of [Time]: blocks of 60 frames, and one line printed
    after each block; the result counts the lines. [fuel] bounds the number
    of blocks, which the polls bound in turn. *)
Fixpoint Time_loop (fuel : nat) (polls : list bool) (gui : option Gui)
    (deadline : Z) (printed : nat) : M (Outcome * nat) :=
  match fuel with
  | O => mret (Running, printed)
  | S fuel' =>
      r ← Time_block 60 polls gui deadline ;
      match r with
      | inl outcome => mret (outcome, printed)
      | inr (polls', deadline') =>
          Time_loop fuel' polls' gui deadline' (S printed)
      end
  end.

(** [Time]: every block but the one that returns takes 60 polls, so one
    more block than there are polls is fuel enough. *)
Definition Time (polls : list bool) (gui : option Gui) (now : Z)
  : M (Outcome * nat) :=
  Time_loop (S (length polls)) polls gui now 0.

End Loops.

End GbCtl.

(** ** The other tile renderer of [lcd/lcd.go] *)

Module LcdTiles.
Import Go Mem Lcd.

Section WithReadRegion.

(** [mem.ReadRegion(addr, n)] belongs to the absent package [mem]; it is
    taken as it comes. *)
Variable ReadRegion : gmap Z Z -> Z -> Z -> list Z.

(** Returns 16 bytes representing one 8x8 tile. *)
Definition tileData (mem : gmap Z Z) (tile : Z) : list Z :=
  let tileAddr :=
    if highBgTileMapDisplaySelect mem then uint16 (0x9c00 + tile)
    else uint16 (0x9800 + tile) in
  let tileNumber := Read mem tileAddr in
  if lowTileDataSelect mem
  then ReadRegion mem (lowTileAbsoluteAddress tileNumber) 16
  else ReadRegion mem (highTileAbsoluteAddress (int8 tileNumber)) 16.

(** The body of the loop over [col] of [drawTiles2]. *)
Definition drawTiles2_col (y x row a b : Z) (col : Z) (data : list Z)
  : option (list Z) :=
  let pixel :=
    Z.lor (Z.land (Z.shiftr a (7 - col)) 1)
          (uint8 (Z.shiftl (Z.land (Z.shiftr b (7 - col)) 1) 1)) in
  let index :=
    uint16 (uint16 (uint16 (uint16 (y * 8) + row) * 256)
            + uint16 (uint16 (x * 8) + col)) in
  store data index pixel.

(** The body of the loop over [row]. *)
Definition drawTiles2_row (tile : list Z) (y x : Z) (row : Z) (data : list Z)
  : option (list Z) :=
  match load tile (uint16 (row * 2)) with
  | None => None
  | Some a =>
      match load tile (uint16 (uint16 (row * 2) + 1)) with
      | None => None
      | Some b => for_range 0 8 (drawTiles2_col y x row a b) data
      end
  end.

(** The body of the loop over [x]. *)
Definition drawTiles2_tile (mem : gmap Z Z) (y : Z) (x : Z) (data : list Z)
  : option (list Z) :=
  let tile := tileData mem (uint16 (uint16 (y * 32) + x)) in
  for_range 0 8 (drawTiles2_row tile y x) data.

Definition drawTiles2 (lcd : LCD) (mem : gmap Z Z) : option LCD :=
  match
    for_range 0 32 (fun y => for_range 0 32 (drawTiles2_tile mem y)) (data lcd)
  with
  | None => None
  | Some d => Some {| data := d |}
  end.

End WithReadRegion.

End LcdTiles.

(** ** The palette of the GL front end *)

Module Palette.

(** The bytes that [renderPixel] has a case for: 0x00-0x03, 0x10-0x13,
    0x20-0x23 and 0x30-0x33. *)
Definition drawable (pixel : Z) : bool :=
  (0 <=? pixel) && (pixel <? 256) && (Z.land pixel 0xCC =? 0).

(** The colour of the case of a drawable byte. *)
Definition colourOf (pixel : Z) : Gl.RGBA :=
  Spec.colour (Z.land pixel 0x03) (Z.land (Z.shiftr pixel 4) 0x03).

Definition white : Gl.RGBA := Gl.mkRGBA 0xff 0xff 0xff 0xff.

End Palette.

(** ** The audio clock, [pkg/gb/audio/audio.go] *)

Module Audio.

(** [float64] is IEEE 754 binary64: 53 bits of precision, rounding to the
    nearest, ties to even. *)
Definition f64mul : spec_float -> spec_float -> spec_float := SFmul 53 1024.

Definition f64add : spec_float -> spec_float -> spec_float := SFadd 53 1024.

(** The [float64] of an integer that it holds exactly. *)
Definition f64 (n : Z) : spec_float := binary_normalize 53 1024 n 0 false.

(** 1.0, which [a.sample++] adds: 2^52 * 2^-52. *)
Definition one : spec_float := S754_finite false 4503599627370496 (-52).

(** [period512hz = 4194304 / 512], a division of integer constants. *)
Definition period512hz : Z := 4194304 / 512.

(** [period44100hz = 95.108934240362812]: the nearest [float64],
    6692696262570359 * 2^-46. *)
Definition period44100hz : spec_float :=
  S754_finite false 6692696262570359 (-46).

(** [math.Round]: the nearest integer, halves away from zero; zeros,
    infinities and NaN as they are. For m * 2^e with e < 0 that is the
    integer part of m * 2^e plus the first bit of its fraction. *)
Definition Round (x : spec_float) : spec_float :=
  match x with
  | S754_finite s m e =>
      if 0 <=? e then x
      else
        let n :=
          Z.shiftr (Z.pos m) (- e) + Z.b2z (Z.testbit (Z.pos m) (- e - 1)) in
        if n =? 0 then S754_zero s
        else binary_normalize 53 1024 (if s then - n else n) 0 false
  | _ => x
  end.

Section Clock.

(** The rest of the [Audio] struct (the channels, the control registers,
    the speakers). *)
Context {Out : Type}.

(** [takeSample] is defined in a file of the package that the sources do
    not have; it works on the rest of the struct. *)
Variable takeSample : Out -> Out.

(** [uint64(x)] of a [float64] that no [uint64] holds (negative, too large,
    infinite, NaN) depends on the platform. *)
Variable uint64_unrepresentable : spec_float -> Z.

(** [uint64(x)]: the fraction is dropped. *)
Definition uint64 (x : spec_float) : Z :=
  match x with
  | S754_zero _ => 0
  | S754_finite false m e =>
      let n := Z.shiftl (Z.pos m) e in
      if n <? 2 ^ 64 then n else uint64_unrepresentable x
  | S754_finite true m e =>
      if Z.shiftl (Z.pos m) e =? 0 then 0 else uint64_unrepresentable x
  | _ => uint64_unrepresentable x
  end.

(** [type Audio struct]: the clock, and the rest. *)
Record Audio := { tick : Z; sample : spec_float; out : Out }.

Definition tick512 (a : Audio) : Audio := a.

Definition tick44100 (a : Audio) : Audio :=
  {| tick := tick a; sample := sample a; out := takeSample (out a) |}.

Definition tickClock (a : Audio) : Audio :=
  let a :=
    if 4194304 <=? tick a
    then {| tick := 0; sample := S754_zero false; out := out a |}
    else a in
  let a := if tick a `mod` period512hz =? 0 then tick512 a else a in
  let a :=
    if tick a =? uint64 (Round (f64mul (sample a) period44100hz)) then
      let a := tick44100 a in
      {| tick := tick a; sample := f64add (sample a) one; out := out a |}
    else a in
  {| tick := (tick a + 1) `mod` 2 ^ 64; sample := sample a; out := out a |}.

(** [EndMachineCycle]: each machine cycle is four clock cycles. *)
Definition EndMachineCycle (a : Audio) : Audio :=
  tickClock (tickClock (tickClock (tickClock a))).

(** The tick at which the next sample is due. *)
Definition due (sample : spec_float) : Z :=
  uint64 (Round (f64mul sample period44100hz)).

(** The next [n] samples, from the sample counter [sample] on and the
    last sample taken at the tick [prev]: if each is due after the one
    before and before the tick 4194304, the sample counter after them and
    the tick of the last. *)
Fixpoint samples (n : nat) (sample : spec_float) (prev : Z)
  : option (spec_float * Z) :=
  match n with
  | O => Some (sample, prev)
  | S n' =>
      let t := due sample in
      if (prev <? t) && (t <? 4194304)
      then samples n' (f64add sample one) t
      else None
  end.

End Clock.

End Audio.

(** * Properties *)

(** ** Integer conversions and memory *)

Lemma uint8_range x : 0 <= Go.uint8 x < 256.
Proof. unfold Go.uint8. apply Z.mod_pos_bound. lia. Qed.

Lemma uint8_small x : 0 <= x < 256 -> Go.uint8 x = x.
Proof. intros Hx. unfold Go.uint8. now apply Z.mod_small. Qed.

Lemma uint16_small x : 0 <= x < 65536 -> Go.uint16 x = x.
Proof. intros Hx. unfold Go.uint16. now apply Z.mod_small. Qed.

Lemma uint8_testbit x i : 0 <= i < 8 -> Z.testbit (Go.uint8 x) i = Z.testbit x i.
Proof.
  intros Hi. unfold Go.uint8. change 256 with (2 ^ 8).
  apply Z.mod_pow2_bits_low. lia.
Qed.

Lemma rem_lt_114 x : Go.rem x 114 < 114.
Proof.
  unfold Go.rem. destruct (Z_le_gt_dec 0 x) as [Hx | Hx].
  - apply Z.rem_bound_pos; lia.
  - pose proof (Z.rem_nonpos x 114 ltac:(lia) ltac:(lia)). lia.
Qed.

Lemma Read_range (memory : gmap Z Z) addr : 0 <= Mem.Read memory addr < 256.
Proof. apply uint8_range. Qed.

Lemma Read_uint8 (memory : gmap Z Z) addr :
  Go.uint8 (Mem.Read memory addr) = Mem.Read memory addr.
Proof. apply uint8_small, Read_range. Qed.

Lemma Read_Write_eq (memory : gmap Z Z) addr v :
  Mem.Read (Mem.Write memory addr v) addr = Go.uint8 v.
Proof. unfold Mem.Read, Mem.Write. now rewrite lookup_insert_eq. Qed.

Lemma Read_Write_ne (memory : gmap Z Z) addr addr' v :
  addr <> addr' ->
  Mem.Read (Mem.Write memory addr v) addr' = Mem.Read memory addr'.
Proof. intros Hne. unfold Mem.Read, Mem.Write. now rewrite lookup_insert_ne. Qed.

(** ** The mode driver *)

Section Tick.
Import Go Mem Lcd.

(** The [default] case of the first [switch] is dead code: [Tick] does not
    panic, and this is the state it leaves. *)
Lemma Tick_eq (memory : gmap Z Z) (cycle : Z) :
  let ly := uint8 (div cycle 114) in
  let r := rem cycle 114 in
  let memory1 :=
    if ly =? 144 then Write memory IF (Z.lor (Read memory IF) 0x01)
    else memory in
  let stat :=
    Tick_interrupts ly r (Tick_coincidence memory1 ly (mode_of ly r)) in
  Tick memory cycle = Some (Write (Write memory1 STAT stat) LY ly).
Proof.
  intros ly r. unfold Tick, Tick_mode, mode_of. fold ly. fold r.
  pose proof (rem_lt_114 cycle) as Hr. fold r in Hr.
  destruct (ly =? 144); [reflexivity |].
  destruct (ly >? 144); [reflexivity |].
  destruct (r <? 20); [reflexivity |].
  destruct (r <? 63); [reflexivity |].
  destruct (Z.ltb_spec r 114); [reflexivity | lia].
Qed.

Lemma mode_of_range ly r : 0 <= mode_of ly r <= 3.
Proof. unfold mode_of. repeat case_match; lia. Qed.

(** Neither the coincidence bits nor the bits of the second [switch] reach
    the low two bits. *)
Lemma stat_low_bits (memory : gmap Z Z) ly r mode :
  0 <= mode <= 3 ->
  Z.land (uint8 (Tick_interrupts ly r (Tick_coincidence memory ly mode))) 0x03
  = mode.
Proof.
  intros Hm.
  assert (mode = 0 \/ mode = 1 \/ mode = 2 \/ mode = 3) as Hcases by lia.
  unfold Tick_interrupts, Tick_coincidence.
  destruct Hcases as [-> | [-> | [-> | ->]]]; repeat case_match; reflexivity.
Qed.

Lemma coincidence_unchanged_by_vblank (memory : gmap Z Z) ly mode (b : bool) :
  Tick_coincidence
    (if b then Write memory IF (Z.lor (Read memory IF) 0x01) else memory)
    ly mode
  = Tick_coincidence memory ly mode.
Proof.
  destruct b; [| reflexivity]. unfold Tick_coincidence.
  rewrite Read_Write_ne; [reflexivity | discriminate].
Qed.

Ltac case_compare :=
  repeat match goal with
    | |- context [?a =? ?b] => destruct (Z.eqb_spec a b)
    | |- context [?a <? ?b] => destruct (Z.ltb_spec a b)
    end.

Lemma mode_of_lcd_mode ly r : mode_of ly r = Spec.lcd_mode ly (4 * r).
Proof.
  unfold mode_of, Spec.lcd_mode. rewrite Z.gtb_ltb.
  case_compare; simpl; lia.
Qed.

(** C3. After every tick the low two bits of STAT hold one mode, the one
    that the line [ly] and the position in the line determine: 2 for the
    first 20 machine cycles (80 dots) of a visible line, 3 up to machine
    cycle 63 (dot 252), 0 for the rest of the line, and 1 from line 144
    on. [Tick] never panics. *)
Theorem Tick_reports_mode (memory : gmap Z Z) (cycle : Z) :
  exists memory', Tick memory cycle = Some memory' /\
    let ly := Read memory' LY in
    let r := rem cycle 114 in
    let mode := Z.land (Read memory' STAT) 0x03 in
    ly = uint8 (div cycle 114) /\
    mode = Spec.lcd_mode ly (4 * r) /\
    (mode = 2 <-> ly < 144 /\ r < 20) /\
    (mode = 3 <-> ly < 144 /\ 20 <= r < 63) /\
    (mode = 0 <-> ly < 144 /\ 63 <= r) /\
    (mode = 1 <-> 144 <= ly).
Proof.
  eexists. split; [apply Tick_eq |]. cbv zeta.
  rewrite Read_Write_eq, Read_Write_ne, Read_Write_eq by discriminate.
  rewrite (uint8_small (uint8 _)) by apply uint8_range.
  rewrite stat_low_bits by apply mode_of_range.
  split; [reflexivity |]. split; [apply mode_of_lcd_mode |].
  pose proof (rem_lt_114 cycle).
  unfold mode_of. rewrite Z.gtb_ltb. case_compare; lia.
Qed.

(** *** The V-Blank request *)

(** The request is made on every tick of line 144, whatever the position
    in the line. *)
Lemma Tick_vblank_on_line_144 (memory : gmap Z Z) (cycle : Z) :
  uint8 (div cycle 114) = 144 ->
  exists memory', Tick memory cycle = Some memory' /\
                  Z.testbit (Read memory' IF) 0 = true.
Proof.
  intros Hly. eexists. split; [apply Tick_eq |]. cbv zeta. rewrite Hly.
  simpl (144 =? 144).
  rewrite !Read_Write_ne, Read_Write_eq by discriminate.
  rewrite uint8_testbit by lia. rewrite Z.lor_spec. apply orb_true_r.
Qed.

(** On the other lines the interrupt flags are left as they are. *)
Lemma Tick_IF_off_line_144 (memory : gmap Z Z) (cycle : Z) :
  uint8 (div cycle 114) <> 144 ->
  exists memory', Tick memory cycle = Some memory' /\
                  Read memory' IF = Read memory IF.
Proof.
  intros Hly. eexists. split; [apply Tick_eq |]. cbv zeta.
  destruct (Z.eqb_spec (uint8 (div cycle 114)) 144); [contradiction |].
  now rewrite !Read_Write_ne by discriminate.
Qed.

(** C5, at the failing input. Machine cycle 16416 is the first of line 144
    and [Tick] raises bit 0 of the interrupt flags there; the CPU
    acknowledges it; the tick of machine cycle 16417, still on line 144,
    raises the bit a second time in the same frame. *)
Theorem Tick_raises_vblank_twice :
  uint8 (div 16415 114) = 143 /\
  uint8 (div 16416 114) = 144 /\
  uint8 (div 16417 114) = 144 /\
  exists memory1 memory3 : gmap Z Z,
    Tick ∅ 16416 = Some memory1 /\
    Z.testbit (Read (∅ : gmap Z Z) IF) 0 = false /\
    Z.testbit (Read memory1 IF) 0 = true /\
    Z.testbit (Read (Spec.acknowledge_vblank memory1) IF) 0 = false /\
    Tick (Spec.acknowledge_vblank memory1) 16417 = Some memory3 /\
    Z.testbit (Read memory3 IF) 0 = true.
Proof.
  repeat (split; [reflexivity |]).
  eexists. eexists.
  split; [vm_compute; reflexivity |].
  repeat (split; [vm_compute; reflexivity |]).
  vm_compute; reflexivity.
Qed.

(** *** The STAT register *)

Lemma testbit_IF_1_vblank (v : Z) :
  Z.testbit (uint8 (Z.lor v 0x01)) 1 = Z.testbit v 1.
Proof.
  rewrite uint8_testbit by lia. rewrite Z.lor_spec. apply orb_false_r.
Qed.

(** C6, as the code has it. [Tick] overwrites STAT with flags of its own
    (bits 6 and 2 when LY equals the byte at 0xff45; bit 4 on line 144,
    else bit 5 on the first machine cycle of a line, else bit 3 on machine
    cycle 63), whatever the CPU had written there, and never changes bit 1
    of the interrupt flags. *)
Theorem Tick_flags_STAT_only (memory : gmap Z Z) (cycle : Z) :
  exists memory', Tick memory cycle = Some memory' /\
    let ly := uint8 (div cycle 114) in
    let r := rem cycle 114 in
    let stat := Read memory' STAT in
    Z.testbit (Read memory' IF) 1 = Z.testbit (Read memory IF) 1 /\
    Z.testbit stat 6 = (ly =? Read memory 0xff45) /\
    Z.testbit stat 2 = (ly =? Read memory 0xff45) /\
    Z.testbit stat 4 = (ly =? 144) /\
    Z.testbit stat 5 = negb (ly =? 144) && (r =? 0) /\
    Z.testbit stat 3 = negb (ly =? 144) && negb (r =? 0) && (r =? 63).
Proof.
  eexists. split; [apply Tick_eq |]. cbv zeta.
  rewrite coincidence_unchanged_by_vblank.
  rewrite !(Read_Write_ne _ LY) by discriminate.
  rewrite Read_Write_ne, Read_Write_eq by discriminate.
  split.
  { destruct (uint8 (div cycle 114) =? 144); [| reflexivity].
    rewrite Read_Write_eq. apply testbit_IF_1_vblank. }
  rewrite !uint8_testbit by lia.
  pose proof (mode_of_range (uint8 (div cycle 114)) (rem cycle 114)) as Hm.
  set (mode := mode_of _ _) in *. clearbody mode.
  assert (mode = 0 \/ mode = 1 \/ mode = 2 \/ mode = 3) as Hcases by lia.
  unfold Tick_interrupts, Tick_coincidence. rewrite Read_uint8.
  destruct (uint8 (div cycle 114) =? Read memory 0xff45),
    (uint8 (div cycle 114) =? 144), (rem cycle 114 =? 0) eqn:H0,
    (rem cycle 114 =? 63) eqn:H63;
    destruct Hcases as [-> | [-> | [-> | ->]]];
    repeat split; reflexivity.
Qed.

(** C6, the claim refuted. The CPU has set every enable bit of STAT (0x78,
    bit 6 among them) and LY equals LYC at machine cycle 0, the first of
    mode 2: the tick leaves bit 1 of the interrupt flags clear. *)
Lemma Tick_raises_no_STAT_interrupt :
  ~ Spec.coincidence_interrupt Sample.stat_enabled 0.
Proof.
  intros Hspec.
  destruct Hspec as (memory' & Htick & Hbit); [reflexivity | reflexivity |].
  rewrite Tick_eq in Htick. injection Htick as <-.
  vm_compute in Hbit. discriminate.
Qed.

End Tick.

(** ** Loops *)

(** An invariant indexed by the iterations already run: if it holds before
    the loop and every iteration keeps it without a panic, the loop ends
    without a panic and the invariant holds of all iterations. *)
Lemma for_each_inv {S : Type} (I : list Z -> S -> Prop)
    (l : list Z) (body : Z -> S -> option S) (s : S) :
  I [] s ->
  (forall done i rest s0,
     l = done ++ i :: rest -> I done s0 ->
     exists s1, body i s0 = Some s1 /\ I (done ++ [i]) s1) ->
  exists s', Go.for_each l body s = Some s' /\ I l s'.
Proof.
  intros Hinit Hstep.
  assert (forall rest done s0,
            l = done ++ rest -> I done s0 ->
            exists s', Go.for_each rest body s0 = Some s' /\ I l s') as Hgen.
  { induction rest as [| i rest IH]; intros done s0 Hl Hdone.
    - rewrite app_nil_r in Hl. subst done. exists s0. now split.
    - destruct (Hstep done i rest s0 Hl Hdone) as (s1 & Hbody & Hinv).
      simpl. rewrite Hbody. apply (IH (done ++ [i])); [| exact Hinv].
      now rewrite <- app_assoc. }
  now apply (Hgen l []).
Qed.

Lemma elem_of_range_split (lo hi : Z) (done rest : list Z) (i : Z) :
  seqZ lo (hi - lo) = done ++ i :: rest -> lo <= i < hi.
Proof.
  intros Hl.
  assert (i ∈ seqZ lo (hi - lo)) as Hin.
  { rewrite Hl. apply elem_of_app. right. apply elem_of_cons. now left. }
  apply elem_of_seqZ in Hin. lia.
Qed.

(** ** The tile renderer *)

Section DrawTiles.
Import Go Mem Lcd.

Lemma land_bit (a k : Z) :
  0 <= k -> Z.land a (Z.shiftl 1 k) = Z.shiftl (Z.b2z (Z.testbit a k)) k.
Proof.
  intros Hk. apply Z.bits_inj'. intros n Hn.
  rewrite Z.land_spec, Z.shiftl_1_l, Z.pow2_bits_eqb by lia.
  destruct (Z.testbit a k) eqn:Hbit; simpl Z.b2z.
  - rewrite Z.shiftl_1_l, Z.pow2_bits_eqb by lia.
    destruct (Z.eqb_spec k n) as [<- | Hne];
      [now rewrite Hbit | apply andb_false_r].
  - rewrite Z.shiftl_0_l, Z.bits_0.
    destruct (Z.eqb_spec k n) as [<- | Hne];
      [now rewrite Hbit | apply andb_false_r].
Qed.

(** [pixel] takes bit [7 - bit] of the two bytes of the row, the first
    byte giving the low bit of the colour and the second the high bit; for
    a column of 0 to 7 the [default] case is dead code. *)
Lemma pixel_bits (mem : gmap Z Z) (memoryAddr bit : Z) :
  0 <= bit < 8 ->
  pixel mem memoryAddr bit =
    Some (Z.lor
            (Z.shiftl
               (Z.b2z (Z.testbit (Read mem (uint16 (memoryAddr + 1)))
                         (7 - bit))) 1)
            (Z.b2z (Z.testbit (Read mem memoryAddr) (7 - bit)))).
Proof.
  intros Hbit.
  assert (bit = 0 \/ bit = 1 \/ bit = 2 \/ bit = 3 \/
          bit = 4 \/ bit = 5 \/ bit = 6 \/ bit = 7) as Hcases by lia.
  unfold pixel. rewrite !Read_uint8.
  unfold bit0, bit1, bit2, bit3, bit4, bit5, bit6, bit7.
  destruct Hcases as [-> | [-> | [-> | [-> | [-> | [-> | [-> | ->]]]]]]];
    cbv iota beta; rewrite !land_bit by lia;
    destruct (Z.testbit (Read mem (uint16 (memoryAddr + 1))) _),
             (Z.testbit (Read mem memoryAddr) _);
    reflexivity.
Qed.

Lemma pixel_range (mem : gmap Z Z) (memoryAddr bit p : Z) :
  pixel mem memoryAddr bit = Some p -> 0 <= p <= 3.
Proof.
  intros Hp.
  destruct (decide (0 <= bit < 8)) as [Hbit | Hbit].
  - rewrite pixel_bits in Hp by exact Hbit. injection Hp as <-.
    destruct (Z.testbit _ _), (Z.testbit _ _);
      split; apply Z.leb_le; reflexivity.
  - unfold pixel in Hp.
    destruct bit as [| q | q]; try discriminate; try lia.
    do 3 (destruct q as [q | q |]; try discriminate; try lia).
Qed.

(** Every position of the LCD gets a colour: the inner loop body cannot
    reach the [panic] of [pixel]. *)
Lemma drawTiles_pixel_total (mem : gmap Z Z) (lcdY lcdX : Z) :
  exists p, drawTiles_pixel mem lcdY lcdX = Some p /\ 0 <= p <= 3.
Proof.
  unfold drawTiles_pixel. cbv zeta.
  pose proof (uint8_range (lcdX + 0)) as Hx.
  pose proof (Z.rem_bound_pos (uint8 (lcdX + 0)) 8 ltac:(lia) ltac:(lia)).
  rewrite pixel_bits by (unfold rem; lia).
  eexists. split; [reflexivity |].
  destruct (Z.testbit _ _), (Z.testbit _ _);
    split; apply Z.leb_le; reflexivity.
Qed.

Lemma drawTiles_body_eq (mem : gmap Z Z) (lcdY lcdX : Z) (d : list Z) :
  length d = Z.to_nat 23040 -> 0 <= lcdY < 144 -> 0 <= lcdX < 160 ->
  exists p, drawTiles_pixel mem lcdY lcdX = Some p /\
            drawTiles_body mem lcdY lcdX d
            = Some (<[index_of lcdY lcdX := p]> d).
Proof.
  intros Hlen Hy Hx.
  destruct (drawTiles_pixel_total mem lcdY lcdX) as (p & Hp & _).
  exists p. split; [exact Hp |].
  unfold drawTiles_body. cbv zeta. rewrite Hp.
  rewrite (uint16_small lcdY), (uint16_small lcdX), uint16_small by lia.
  unfold store, index_of.
  destruct (Z.leb_spec 0 (lcdY * 160 + lcdX)); [| lia].
  destruct (Z.ltb_spec (lcdY * 160 + lcdX) (Z.of_nat (length d))); [| lia].
  reflexivity.
Qed.

(** Writing one position leaves what the others hold. *)
Lemma insert_keeps_pixel (mem : gmap Z Z) (d : list Z) (y x p y' x' : Z) :
  length d = Z.to_nat 23040 ->
  0 <= y < 144 -> 0 <= x < 160 -> 0 <= y' < 144 -> 0 <= x' < 160 ->
  drawTiles_pixel mem y x = Some p ->
  d !! index_of y' x' = drawTiles_pixel mem y' x' ->
  <[index_of y x := p]> d !! index_of y' x' = drawTiles_pixel mem y' x'.
Proof.
  intros Hlen Hy Hx Hy' Hx' Hp Hold. unfold index_of in *.
  destruct (decide (Z.to_nat (y * 160 + x) = Z.to_nat (y' * 160 + x')))
    as [Heq | Hne].
  - assert (y' = y /\ x' = x) as [-> ->] by lia.
    rewrite list_lookup_insert_eq by lia. now rewrite Hp.
  - now rewrite list_lookup_insert_ne.
Qed.

(** The two loops of [drawTiles] end without a panic and leave in every
    position of the array the colour computed for it. *)
Lemma drawTiles_loops (mem : gmap Z Z) (d0 : list Z) :
  length d0 = Z.to_nat 23040 ->
  exists d,
    for_range 0 144 (fun lcdY =>
      for_range 0 160 (fun lcdX => drawTiles_body mem lcdY lcdX)) d0 = Some d
    /\ length d = Z.to_nat 23040
    /\ forall y x, 0 <= y < 144 -> 0 <= x < 160 ->
         d !! index_of y x = drawTiles_pixel mem y x.
Proof.
  intros Hlen0. unfold for_range at 1.
  pose (rows_done (done : list Z) (d : list Z) :=
          length d = Z.to_nat 23040 /\
          forall y x, y ∈ done -> 0 <= y < 144 -> 0 <= x < 160 ->
            d !! index_of y x = drawTiles_pixel mem y x).
  destruct (for_each_inv rows_done (seqZ 0 (144 - 0))
              (fun lcdY => for_range 0 160
                 (fun lcdX => drawTiles_body mem lcdY lcdX)) d0)
    as (d & Hrun & Hlen & Hall).
  - split; [exact Hlen0 |]. intros y x Hin. now apply elem_of_nil in Hin.
  - intros done y rest d1 Hsplit [Hlen1 Hrows].
    pose proof (elem_of_range_split _ _ _ _ _ Hsplit) as Hy.
    pose (cols_done (cols : list Z) (d : list Z) :=
            length d = Z.to_nat 23040 /\
            (forall y' x, y' ∈ done -> 0 <= y' < 144 -> 0 <= x < 160 ->
               d !! index_of y' x = drawTiles_pixel mem y' x) /\
            forall x, x ∈ cols -> 0 <= x < 160 ->
              d !! index_of y x = drawTiles_pixel mem y x).
    destruct (for_each_inv cols_done (seqZ 0 (160 - 0))
                (fun lcdX => drawTiles_body mem y lcdX) d1)
      as (d2 & Hrun2 & Hlen2 & Hrows2 & Hcols2).
    + split; [exact Hlen1 |]. split; [exact Hrows |].
      intros x Hin. now apply elem_of_nil in Hin.
    + intros cols x rest' d3 Hsplit' (Hlen3 & Hrows3 & Hcols3).
      pose proof (elem_of_range_split _ _ _ _ _ Hsplit') as Hx.
      destruct (drawTiles_body_eq mem y x d3 Hlen3 Hy Hx)
        as (p & Hp & Hbody).
      eexists. split; [exact Hbody |].
      split; [now rewrite length_insert |]. split.
      * intros y' x' Hin Hy' Hx'.
        apply (insert_keeps_pixel mem); auto.
      * intros x' Hin Hx'.
        apply elem_of_app in Hin as [Hin | Hin].
        -- apply (insert_keeps_pixel mem); auto.
        -- apply list_elem_of_singleton in Hin as ->.
           unfold index_of. rewrite list_lookup_insert_eq by lia.
           now rewrite Hp.
    + exists d2. split; [exact Hrun2 |]. split; [exact Hlen2 |].
      intros y' x Hin Hy' Hx.
      apply elem_of_app in Hin as [Hin | Hin]; [now apply Hrows2 |].
      apply list_elem_of_singleton in Hin as ->.
      apply Hcols2; [| exact Hx]. apply elem_of_seqZ. lia.
  - exists d. split; [exact Hrun |]. split; [exact Hlen |].
    intros y x Hy Hx. apply Hall; [| exact Hy | exact Hx].
    apply elem_of_seqZ. lia.
Qed.

Lemma FrameData_lookup (lcd : LCD) (mem : gmap Z Z) :
  length (data lcd) = Z.to_nat 23040 ->
  exists d, FrameData lcd mem = Some d
    /\ length d = Z.to_nat 23040
    /\ forall y x, 0 <= y < 144 -> 0 <= x < 160 ->
         d !! index_of y x = drawTiles_pixel mem y x.
Proof.
  intros Hlen.
  destruct (drawTiles_loops mem (data lcd) Hlen) as (d & Hrun & Hd).
  exists d. split; [| exact Hd].
  unfold FrameData, drawTiles. now rewrite Hrun.
Qed.

Lemma index_of_div_mod (i : nat) :
  index_of (Z.of_nat i / 160) (Z.of_nat i `mod` 160) = i.
Proof.
  unfold index_of.
  rewrite Z.mul_comm, <- Z.div_mod by lia. apply Nat2Z.id.
Qed.

Lemma FrameData_range (lcd : LCD) (mem : gmap Z Z) (d : list Z) :
  length (data lcd) = Z.to_nat 23040 ->
  FrameData lcd mem = Some d ->
  Forall (fun p => 0 <= p <= 3) d.
Proof.
  intros Hlen Hd.
  destruct (FrameData_lookup lcd mem Hlen) as (d' & Hd' & Hlen' & Hall).
  rewrite Hd in Hd'. injection Hd' as <-.
  apply Forall_lookup. intros i p Hi.
  pose proof (lookup_lt_Some _ _ _ Hi) as Hlt.
  rewrite <- (index_of_div_mod i) in Hi.
  assert (0 <= Z.of_nat i `mod` 160 < 160) by (apply Z.mod_pos_bound; lia).
  assert (0 <= Z.of_nat i / 160 < 144).
  { split; [apply Z.div_pos; lia | apply Z.div_lt_upper_bound; lia]. }
  rewrite Hall in Hi by lia.
  destruct (drawTiles_pixel_total mem (Z.of_nat i / 160)
              (Z.of_nat i `mod` 160)) as (p' & Hp' & Hrange).
  congruence.
Qed.

End DrawTiles.

(** ** The GL renderer *)

Section Render.
Import Go.

Lemma renderPixel_shade (im : Gl.Image) (x y p : Z) :
  0 <= p <= 3 -> exists im', Gl.renderPixel im x y p = Some im'.
Proof.
  intros Hp. assert (p = 0 \/ p = 1 \/ p = 2 \/ p = 3) as Hcases by lia.
  destruct Hcases as [-> | [-> | [-> | ->]]]; eexists; reflexivity.
Qed.

(** [renderFrame] does not panic on frame data of shades 0 to 3. *)
Lemma renderFrame_total (d : list Z) :
  length d = Z.to_nat 23040 ->
  Forall (fun p => 0 <= p <= 3) d ->
  exists im, Gl.renderFrame d = Some im.
Proof.
  intros Hlen Hd. unfold Gl.renderFrame, for_range. cbv zeta.
  destruct (for_each_inv (fun _ _ => True) (seqZ 0 (144 - 0))
              (fun y => for_each (seqZ 0 (160 - 0))
                 (fun x => Gl.renderFrame_body d y x))
              (Gl.NewRGBA 160 144)) as (im & Hrun & _); [exact I | |].
  - intros done y rest im0 Hsplit _.
    pose proof (elem_of_range_split _ _ _ _ _ Hsplit) as Hy.
    destruct (for_each_inv (fun _ _ => True) (seqZ 0 (160 - 0))
                (fun x => Gl.renderFrame_body d y x) im0)
      as (im1 & Hrun1 & _); [exact I | | now exists im1].
    intros cols x rest' im2 Hsplit' _.
    pose proof (elem_of_range_split _ _ _ _ _ Hsplit') as Hx.
    unfold Gl.renderFrame_body, load.
    destruct (Z.leb_spec 0 (y * 160 + x)); [| lia].
    destruct (lookup_lt_is_Some_2 d (Z.to_nat (y * 160 + x)) ltac:(lia))
      as [p Hp].
    rewrite Hp. rewrite Forall_lookup in Hd.
    destruct (renderPixel_shade im2 x y p (Hd _ _ Hp)) as [im3 Him3].
    now exists im3.
  - now exists im.
Qed.

End Render.

(** ** The frame, from the tiles to the screen *)

Section Frame.
Import Go Mem Lcd.

(** C9. [pixel] returns 0 to 3 only; so [drawTiles], which overwrites all
    23040 bytes of the frame data, leaves bytes of 0 to 3, and
    [renderFrame] never reaches the [panic] of [renderPixel] on them. *)
Theorem drawTiles_frame_renders (lcd : LCD) (mem : gmap Z Z) :
  length (data lcd) = Z.to_nat 23040 ->
  (forall memoryAddr bit p,
     pixel mem memoryAddr bit = Some p -> p ∈ [0; 1; 2; 3]) /\
  exists d, FrameData lcd mem = Some d /\
            length d = Z.to_nat 23040 /\
            Forall (fun p => p ∈ [0; 1; 2; 3]) d /\
            exists im, Gl.renderFrame d = Some im.
Proof.
  intros Hlen.
  assert (forall p, 0 <= p <= 3 -> p ∈ [0; 1; 2; 3]) as Hset.
  { intros p Hp. assert (p = 0 \/ p = 1 \/ p = 2 \/ p = 3) as Hc by lia.
    clear Hp. destruct Hc as [-> | [-> | [-> | ->]]]; set_solver. }
  split.
  { intros memoryAddr bit p Hp. eapply Hset, pixel_range, Hp. }
  destruct (FrameData_lookup lcd mem Hlen) as (d & Hd & Hlend & _).
  pose proof (FrameData_range lcd mem d Hlen Hd) as Hrange.
  exists d. split; [exact Hd |]. split; [exact Hlend |]. split.
  - eapply Forall_impl; [exact Hrange | exact Hset].
  - now apply renderFrame_total.
Qed.

Lemma drawTiles_frame_renders_witness :
  length (data NewLCD) = Z.to_nat 23040 /\
  ((forall memoryAddr bit p,
      pixel ∅ memoryAddr bit = Some p -> p ∈ [0; 1; 2; 3]) /\
   exists d, FrameData NewLCD ∅ = Some d /\
             length d = Z.to_nat 23040 /\
             Forall (fun p => p ∈ [0; 1; 2; 3]) d /\
             exists im, Gl.renderFrame d = Some im).
Proof.
  split; [apply length_replicate |].
  apply (drawTiles_frame_renders NewLCD ∅). apply length_replicate.
Defined.

(** With the scroll registers at zero, the colour that [drawTiles]
    computes is the colour index of the background. *)
Lemma drawTiles_pixel_spec (mem : gmap Z Z) (x ly : Z) :
  0 <= x < 160 -> 0 <= ly < 144 ->
  Read mem SCX = 0 -> Read mem SCY = 0 ->
  drawTiles_pixel mem ly x = Some (Spec.bg_colour_index mem x ly).
Proof.
  intros Hx Hy HSCX HSCY.
  unfold drawTiles_pixel, Spec.bg_colour_index. cbv zeta.
  rewrite HSCX, HSCY, !Z.add_0_r.
  rewrite (uint8_small x), (uint8_small ly) by lia.
  change 0xFF with (Z.ones 8). rewrite !Z.land_ones by lia.
  change (2 ^ 8) with 256.
  rewrite (Z.mod_small x 256), (Z.mod_small ly 256) by lia.
  unfold div, rem. rewrite !Z.quot_div_nonneg, !Z.rem_mod_nonneg by lia.
  assert (0 <= x / 8 < 20) as Htx.
  { split; [apply Z.div_pos; lia | apply Z.div_lt_upper_bound; lia]. }
  assert (0 <= ly / 8 < 18) as Hty.
  { split; [apply Z.div_pos; lia | apply Z.div_lt_upper_bound; lia]. }
  assert (0 <= x `mod` 8 < 8) as Hox by (apply Z.mod_pos_bound; lia).
  assert (0 <= ly `mod` 8 < 8) as Hoy by (apply Z.mod_pos_bound; lia).
  unfold tileDataAddr, highBgTileMapDisplaySelect, lowTileDataSelect.
  cbv zeta.
  rewrite (uint16_small (x / 8)), (uint16_small (ly / 8)) by lia.
  rewrite (uint16_small (ly / 8 * 32 + x / 8)) by lia.
  rewrite (uint16_small (ly `mod` 8)) by lia.
  set (map_base := if Z.testbit (Read mem LCDC) 3 then 0x9C00 else 0x9800).
  assert ((if Z.testbit (Read mem LCDC) 3
           then uint16 (0x9c00 + (ly / 8 * 32 + x / 8))
           else uint16 (0x9800 + (ly / 8 * 32 + x / 8)))
          = map_base + ly / 8 * 32 + x / 8) as ->.
  { unfold map_base.
    destruct (Z.testbit (Read mem LCDC) 3); rewrite uint16_small; lia. }
  set (idx := Read mem (map_base + ly / 8 * 32 + x / 8)).
  pose proof (Read_range mem (map_base + ly / 8 * 32 + x / 8)) as Hidx.
  fold idx in Hidx.
  set (tile := if Z.testbit (Read mem LCDC) 4 then 0x8000 + idx * 16
               else 0x9000 + int8 idx * 16).
  assert (-128 <= int8 idx < 128) as Hsigned.
  { unfold int8.
    pose proof (Z.mod_pos_bound (idx + 128) 256 ltac:(lia)). lia. }
  assert ((if Z.testbit (Read mem LCDC) 4 then lowTileAbsoluteAddress idx
           else highTileAbsoluteAddress (int8 idx)) = tile) as ->.
  { unfold tile, lowTileAbsoluteAddress, highTileAbsoluteAddress.
    destruct (Z.testbit (Read mem LCDC) 4).
    - rewrite (uint16_small idx) by lia. apply uint16_small. lia.
    - apply uint16_small. lia. }
  assert (0x8000 <= tile < 0x9800) as Htile.
  { unfold tile. destruct (Z.testbit (Read mem LCDC) 4); lia. }
  rewrite (uint16_small (tile + ly `mod` 8 * 2)) by lia.
  rewrite pixel_bits by lia.
  rewrite (uint16_small (tile + ly `mod` 8 * 2 + 1)) by lia.
  replace (tile + ly `mod` 8 * 2) with (tile + 2 * (ly `mod` 8)) by lia.
  reflexivity.
Qed.

(** C4, as the code has it. Whatever LCDC bit 0 is, the byte that
    [drawTiles] leaves for the pixel ([x], [ly]) is the colour index 0 to 3
    of the background, not taken through BGP: tile map base 0x9C00 if LCDC
    bit 3 else 0x9800, tile data at 0x8000 + idx*16 (idx unsigned) if LCDC
    bit 4 else at 0x9000 + (signed idx)*16, the two bits taken from bit
    7 - (bx % 8) of the two row bytes of row by % 8. This is stated for
    scroll registers at zero, where bx = x and by = ly. *)
Theorem drawTiles_background (lcd : LCD) (mem : gmap Z Z) (x ly : Z) :
  length (data lcd) = Z.to_nat 23040 ->
  0 <= x < 160 -> 0 <= ly < 144 ->
  Read mem SCX = 0 -> Read mem SCY = 0 ->
  exists d, FrameData lcd mem = Some d /\
            d !! index_of ly x = Some (Spec.bg_colour_index mem x ly).
Proof.
  intros Hlen Hx Hy HSCX HSCY.
  destruct (FrameData_lookup lcd mem Hlen) as (d & Hd & _ & Hall).
  exists d. split; [exact Hd |].
  rewrite Hall by lia. now apply drawTiles_pixel_spec.
Qed.

Lemma drawTiles_background_witness :
  length (data NewLCD) = Z.to_nat 23040 /\
  0 <= 0 < 160 /\ 0 <= 0 < 144 /\
  Read Sample.one_dark_pixel SCX = 0 /\ Read Sample.one_dark_pixel SCY = 0 /\
  Spec.bg_colour_index Sample.one_dark_pixel 0 0 = 3 /\
  exists d, FrameData NewLCD Sample.one_dark_pixel = Some d /\
            d !! index_of 0 0
            = Some (Spec.bg_colour_index Sample.one_dark_pixel 0 0).
Proof.
  split; [apply length_replicate |].
  split; [lia |]. split; [lia |].
  split; [vm_compute; reflexivity |].
  split; [vm_compute; reflexivity |].
  split; [vm_compute; reflexivity |].
  apply (drawTiles_background NewLCD Sample.one_dark_pixel 0 0);
    [apply length_replicate | lia | lia
    | vm_compute; reflexivity | vm_compute; reflexivity].
Defined.

(** C4, the claim refuted. LCDC bit 0 is set, the scroll registers are
    zero, video memory is empty and BGP maps colour 0 to shade 3: the claim
    has shade 3 for the top left pixel, [drawTiles] leaves 0 there. *)
Lemma drawTiles_ignores_palette :
  ~ Spec.background_rendered NewLCD Sample.dark_palette.
Proof.
  intros Hspec.
  destruct (Hspec eq_refl 0 0 ltac:(lia) ltac:(lia)) as (d & Hd & Hshade).
  destruct (FrameData_lookup NewLCD Sample.dark_palette)
    as (d' & Hd' & _ & Hall); [apply length_replicate |].
  rewrite Hd in Hd'. injection Hd' as <-.
  rewrite (Hall 0 0) in Hshade by lia.
  vm_compute in Hshade. discriminate.
Qed.

(** C7. A frame byte with no bit outside bits 0-1 and 4-5 is drawn in the
    colour of the table: the low two bits select the grey level (0xff,
    0xaa, 0x77, 0x33), bits 4-5 the tint, which keeps that level on the
    red, green or blue channel and takes the two others one level down;
    alpha is 0xff. Any other byte makes [renderPixel] panic. *)
Theorem renderPixel_palette (im : Gl.Image) (x y pixel : Z) :
  0 <= pixel < 256 ->
  let shade := Z.land pixel 0x03 in
  let tint := Z.land (Z.shiftr pixel 4) 0x03 in
  Gl.renderPixel im x y pixel
  = (if Z.land pixel 0xCC =? 0
     then Some (Gl.SetRGBA im x y (Spec.colour shade tint))
     else None)
  /\ Spec.biased tint (Spec.colour shade tint)
  /\ Gl.cA (Spec.colour shade tint) = 0xff
  /\ Spec.colour 0 0 = Gl.mkRGBA 0xff 0xff 0xff 0xff
  /\ Spec.colour 1 0 = Gl.mkRGBA 0xaa 0xaa 0xaa 0xff
  /\ Spec.colour 2 0 = Gl.mkRGBA 0x77 0x77 0x77 0xff
  /\ Spec.colour 3 0 = Gl.mkRGBA 0x33 0x33 0x33 0xff.
Proof.
  intros Hpixel. cbv zeta.
  split; [| split; [| split; [| repeat split]]].
  - destruct pixel as [| q | q]; [reflexivity | | lia].
    do 8 (destruct q as [q | q |]; try reflexivity); lia.
  - destruct pixel as [| q | q]; [vm_compute; auto | | lia].
    do 8 (destruct q as [q | q |]; try (vm_compute; auto; fail)); lia.
  - destruct pixel as [| q | q]; [reflexivity | | lia].
    do 8 (destruct q as [q | q |]; try reflexivity); lia.
Qed.

Lemma renderPixel_palette_witness :
  0 <= 0x21 < 256 /\
  Gl.renderPixel (Gl.NewRGBA 160 144) 0 0 0x21
  = Some (Gl.SetRGBA (Gl.NewRGBA 160 144) 0 0 (Gl.mkRGBA 0x77 0xaa 0x77 0xff))
  /\ Spec.colour 1 2 = Gl.mkRGBA 0x77 0xaa 0x77 0xff.
Proof.
  split; [lia |].
  pose proof (renderPixel_palette (Gl.NewRGBA 160 144) 0 0 0x21 ltac:(lia))
    as [Hdrawn _].
  split; [exact Hdrawn | reflexivity].
Defined.

End Frame.

(** ** The orchestrator *)

Section Orchestrator.
Import Go Gb.
Context `{Devices}.

Lemma count_app (p : Call -> bool) (l1 l2 : list Call) :
  count p (l1 ++ l2) = (count p l1 + count p l2)%nat.
Proof. unfold count. now rewrite List.filter_app, length_app. Qed.

Lemma count_concat_replicate (p : Call -> bool) (n : nat) (cs : list Call) :
  count p (concat (replicate n cs)) = (n * count p cs)%nat.
Proof.
  induction n as [| n IH]; [reflexivity |].
  simpl. rewrite count_app, IH. reflexivity.
Qed.

Lemma machineCycle_eq (gb : Gameboy) :
  machineCycle gb
  = (tt, {| hw := cycle_hardware (hw gb); dur := dur gb; frame := frame gb |},
     cycle_calls).
Proof.
  unfold machineCycle, cycle_hardware, mbind, M_bind, call, onHardware,
    onMemory, askHardware. simpl.
  destruct (timer_EndMachineCycle _) as [h4 [|]]; reflexivity.
Qed.

(** The loop of machine cycles, one for each value of [mtick]. *)
Lemma for_each_machineCycle (l : list Z) (gb : Gameboy) :
  for_each l (fun mtick => machineCycle) gb
  = (tt, {| hw := Nat.iter (length l) cycle_hardware (hw gb);
            dur := dur gb; frame := frame gb |},
     concat (replicate (length l) cycle_calls)).
Proof.
  revert gb. induction l as [| mtick l IH]; intros gb.
  - destruct gb. reflexivity.
  - change (for_each (mtick :: l) (fun _ => machineCycle))
      with (machineCycle ;; for_each l (fun _ => machineCycle)).
    unfold mbind, M_bind. rewrite machineCycle_eq, IH.
    cbn [hw dur frame length]. rewrite <- Nat.iter_succ_r. reflexivity.
Qed.

Lemma runFrame_eq (gui : option Gui) (deadline : Z) (gb : Gameboy) :
  runFrame gui deadline gb
  = (tt,
     {| hw := frame_hardware (hw gb); dur := dur gb;
        frame := int (frame gb + 1) |},
     concat (replicate (Z.to_nat 17556) cycle_calls)
     ++ [Call_lcd_FrameEnd]
     ++ match gui with
        | Some _ =>
            [Call_gui_DrawFrame (lcd_Frame (lcd (frame_hardware (hw gb))))]
        | None => []
        end
     ++ [Call_time_Sleep deadline]).
Proof.
  unfold runFrame, frame_hardware, for_range.
  unfold mbind at 1, M_bind at 1. rewrite for_each_machineCycle.
  rewrite length_seqZ. change (17556 - 0) with 17556.
  generalize (Z.to_nat 17556) as n. intros n.
  destruct gui; reflexivity.
Qed.

Lemma runFrame_count (p : Call -> bool) (gui : option Gui) (deadline : Z)
    (gb : Gameboy) :
  count p (callsOf (runFrame gui deadline gb))
  = (Z.to_nat 17556 * count p cycle_calls
     + (count p [Call_lcd_FrameEnd]
        + (count p match gui with
                   | Some _ =>
                       [Call_gui_DrawFrame
                          (lcd_Frame (lcd (frame_hardware (hw gb))))]
                   | None => []
                   end
           + count p [Call_time_Sleep deadline])))%nat.
Proof.
  rewrite runFrame_eq. unfold callsOf. cbn [snd].
  now rewrite !count_app, count_concat_replicate.
Qed.

(** C1, as the code has it. A frame iteration runs 17556 machine cycles,
    each stepping the CPU, the memory, the LCD and the timer once; it ends
    the frame once; it hands the frame of the LCD to the GUI once when
    there is a GUI and not at all when [gui] is nil; the frame counter
    goes up by one. *)
Theorem runFrame_one_frame (gui : option Gui) (deadline : Z) (gb : Gameboy) :
  let r := runFrame gui deadline gb in
  Z.of_nat (count is_dispatch_ExecuteMachineCycle (callsOf r)) = 17556 /\
  Z.of_nat (count is_memory_ExecuteMachineCycle (callsOf r)) = 17556 /\
  Z.of_nat (count is_lcd_EndMachineCycle (callsOf r)) = 17556 /\
  Z.of_nat (count is_timer_EndMachineCycle (callsOf r)) = 17556 /\
  count is_lcd_FrameEnd (callsOf r) = 1%nat /\
  count is_gui_DrawFrame (callsOf r)
  = match gui with Some _ => 1%nat | None => 0%nat end /\
  (forall g, gui = Some g ->
     Call_gui_DrawFrame (lcd_Frame (lcd (hw (stateOf r)))) ∈ callsOf r) /\
  frame (stateOf r) = int (frame gb + 1).
Proof.
  cbv zeta. rewrite !runFrame_count.
  change (count is_dispatch_ExecuteMachineCycle cycle_calls) with 1%nat.
  change (count is_memory_ExecuteMachineCycle cycle_calls) with 1%nat.
  change (count is_lcd_EndMachineCycle cycle_calls) with 1%nat.
  change (count is_timer_EndMachineCycle cycle_calls) with 1%nat.
  change (count is_lcd_FrameEnd cycle_calls) with 0%nat.
  change (count is_gui_DrawFrame cycle_calls) with 0%nat.
  repeat split.
  1-4: destruct gui; cbn [count List.filter length
         is_dispatch_ExecuteMachineCycle is_memory_ExecuteMachineCycle
         is_lcd_EndMachineCycle is_timer_EndMachineCycle]; lia.
  - destruct gui; cbn [count List.filter length is_lcd_FrameEnd]; lia.
  - destruct gui; cbn [count List.filter length is_gui_DrawFrame]; lia.
  - intros g ->. rewrite runFrame_eq. unfold stateOf, callsOf.
    cbn [fst snd hw]. rewrite !elem_of_app. right. right. left.
    apply list_elem_of_singleton. reflexivity.
  - now rewrite runFrame_eq.
Qed.

(** C2, as the code has it. One iteration of the loop of [runFrame] calls
    the CPU, then the memory, then the LCD, then the timer, and nothing
    else; what it leaves is the composition of these four steps, with bit 2
    of the interrupt flags set when the timer asks for it. No frame
    iteration calls the audio. *)
Theorem machineCycle_order (gb : Gameboy) :
  let h1 := dispatch_ExecuteMachineCycle (hw gb) in
  let h2 := memory_ExecuteMachineCycle h1 in
  let h3 := lcd_EndMachineCycle h2 in
  let h4 := fst (timer_EndMachineCycle h3) in
  let requested := snd (timer_EndMachineCycle h3) in
  let h5 :=
    if requested then
      {| dispatch := dispatch h4;
         memory := set_IF (fun v => Z.lor v 0x04) (memory h4);
         timer := timer h4; lcd := lcd h4 |}
    else h4 in
  machineCycle gb
  = (tt, {| hw := h5; dur := dur gb; frame := frame gb |},
     [Call_dispatch_ExecuteMachineCycle; Call_memory_ExecuteMachineCycle;
      Call_lcd_EndMachineCycle; Call_timer_EndMachineCycle])
  /\ forall gui deadline,
       count is_audio_EndMachineCycle (callsOf (runFrame gui deadline gb))
       = 0%nat.
Proof.
  cbv zeta. split.
  - rewrite machineCycle_eq. unfold cycle_hardware, cycle_calls.
    destruct (timer_EndMachineCycle _) as [h4 [|]]; reflexivity.
  - intros gui deadline. rewrite runFrame_count.
    change (count is_audio_EndMachineCycle cycle_calls) with 0%nat.
    destruct gui; cbn [count List.filter length is_audio_EndMachineCycle];
      lia.
Qed.

(** *** Buttons *)

Lemma andnot_idempotent (v m : Z) : andnot (andnot v m) m = andnot v m.
Proof.
  unfold andnot. apply Z.bits_inj'. intros n Hn.
  rewrite !Z.ldiff_spec. now destruct (Z.testbit v n), (Z.testbit m n).
Qed.

Lemma joypad_raised_same (v : Z) : joypad_raised v v = 0%nat.
Proof. unfold joypad_raised. now destruct (Z.testbit v 4). Qed.

Ltac run_button :=
  unfold ButtonAction, stateOf, callsOf, mbind, M_bind, mret, M_ret, call,
    onCpu, onMemory, onHardware, set_ButtonInput, set_DirectionInput;
  cbn -[andnot Z.lor].

(** [ButtonAction] starts the CPU and leaves the rest of the devices but
    the joypad nibbles as they are. *)
Lemma ButtonAction_frame (b : Button) (pressed : bool) (gb : Gameboy) :
  let gb' := stateOf (ButtonAction b pressed gb) in
  callsOf (ButtonAction b pressed gb) = [Call_dispatch_Start] /\
  dispatch (hw gb') = dispatch_Start (dispatch (hw gb)) /\
  IF (memory (hw gb')) = IF (memory (hw gb)).
Proof. destruct b, pressed; run_button; repeat split. Qed.

(** C8. Pressing the same button twice leaves both joypad nibbles as the
    first press left them.  [ButtonAction] does not write the interrupt
    flags: after the first press and after the second they are the flags
    from before the events, so neither event raises the joypad interrupt
    and the pair raises none, which is at most one. *)
Theorem ButtonAction_press_idempotent (b : Button) (gb : Gameboy) :
  let gb1 := stateOf (ButtonAction b true gb) in
  let gb2 := stateOf (ButtonAction b true gb1) in
  ButtonInput (memory (hw gb2)) = ButtonInput (memory (hw gb1)) /\
  DirectionInput (memory (hw gb2)) = DirectionInput (memory (hw gb1)) /\
  IF (memory (hw gb1)) = IF (memory (hw gb)) /\
  IF (memory (hw gb2)) = IF (memory (hw gb)) /\
  joypad_raised (IF (memory (hw gb))) (IF (memory (hw gb1))) = 0%nat /\
  joypad_raised (IF (memory (hw gb1))) (IF (memory (hw gb2))) = 0%nat.
Proof.
  cbv zeta.
  pose proof (ButtonAction_frame b true gb) as (_ & _ & H1).
  pose proof (ButtonAction_frame b true (stateOf (ButtonAction b true gb)))
    as (_ & _ & H2).
  cbv zeta in H1, H2. rewrite H1 in H2.
  split; [| split; [| split; [exact H1 | split; [exact H2 |]]]].
  - destruct b; run_button; now rewrite ?andnot_idempotent.
  - destruct b; run_button; now rewrite ?andnot_idempotent.
  - rewrite H2, H1. split; apply joypad_raised_same.
Qed.

(** C10. Every button event, press or release, of whichever button, makes
    exactly one call, to [Start], and the CPU it leaves is the one that
    [Start] returns: a release starts a stopped CPU just as a press
    does. *)
Theorem ButtonAction_starts_cpu (b : Button) (pressed : bool) (gb : Gameboy) :
  let r := ButtonAction b pressed gb in
  callsOf r = [Call_dispatch_Start] /\
  count is_dispatch_Start (callsOf r) = 1%nat /\
  dispatch (hw (stateOf r)) = dispatch_Start (dispatch (hw gb)).
Proof.
  cbv zeta.
  pose proof (ButtonAction_frame b pressed gb) as (Hcalls & Hcpu & _).
  rewrite Hcalls. repeat split. exact Hcpu.
Qed.

End Orchestrator.

(** *** On the machine at rest *)

Section AtRest.
Import Gb.

(** C1, the claim refuted. Without a GUI ([gui] is nil) a frame iteration
    publishes no frame. *)
Lemma runFrame_without_gui_publishes_nothing :
  ~ Spec.one_frame_published (callsOf (runFrame None 0 Idle.stopped)).
Proof.
  intros [_ Hpublished]. rewrite runFrame_count in Hpublished.
  change (count is_gui_DrawFrame cycle_calls) with 0%nat in Hpublished.
  cbn [count List.filter length is_gui_DrawFrame] in Hpublished. lia.
Qed.

(** C2, the claim refuted. The machine cycle of [runFrame] is not the
    sequence of five steps: it makes no call to the audio. *)
Lemma machineCycle_skips_audio :
  machineCycle Idle.stopped <> Spec.machineCycle Idle.stopped.
Proof.
  intros Heq. apply (f_equal callsOf) in Heq.
  vm_compute in Heq. discriminate.
Qed.

(** A released key starts the stopped CPU of the machine at rest. *)
Lemma ButtonAction_release_starts_stopped_cpu :
  dispatch (hw Idle.stopped) = Idle.Stopped /\
  dispatch (hw (stateOf (ButtonAction ui_A false Idle.stopped)))
  = Idle.Running.
Proof. split; reflexivity. Qed.

End AtRest.

(** * Further properties *)

(** ** Buttons *)

Section Buttons.
Import Go Gb GbCtl.
Context `{Devices}.

Lemma testbit_andnot_bit (v k n : Z) :
  0 <= k ->
  Z.testbit (andnot v (Z.shiftl 1 k)) n
  = if n =? k then false else Z.testbit v n.
Proof.
  intros Hk. unfold andnot.
  rewrite Z.ldiff_spec, Z.shiftl_1_l, Z.pow2_bits_eqb by lia.
  rewrite (Z.eqb_sym k n).
  destruct (n =? k); [apply andb_false_r | apply andb_true_r].
Qed.

Lemma testbit_lor_bit (v k n : Z) :
  0 <= k ->
  Z.testbit (Z.lor v (Z.shiftl 1 k)) n
  = if n =? k then true else Z.testbit v n.
Proof.
  intros Hk.
  rewrite Z.lor_spec, Z.shiftl_1_l, Z.pow2_bits_eqb by lia.
  rewrite (Z.eqb_sym k n).
  destruct (n =? k); [apply orb_true_r | apply orb_false_r].
Qed.

(** The cascade of [if]s of [ButtonAction] comes down to one update of one
    line. *)
Lemma ButtonAction_eq (b : Button) (pressed : bool) (gb : Gameboy) :
  ButtonAction b pressed gb
  = (tt,
     {| hw := {| dispatch := dispatch_Start (dispatch (hw gb));
                 memory := set_line b pressed (memory (hw gb));
                 timer := timer (hw gb); lcd := lcd (hw gb) |};
        dur := dur gb; frame := frame gb |},
     [Call_dispatch_Start]).
Proof. destruct b, pressed; reflexivity. Qed.

Lemma line_nonneg (b : Button) : 0 <= snd (line b).
Proof. destruct b; simpl; lia. Qed.

(** The bits of the nibbles after an update of a line. *)
Lemma set_line_bits (b : Button) (pressed : bool) (m : Memory) (n : Z) :
  Z.testbit (ButtonInput (set_line b pressed m)) n
  = (if fst (line b) && (n =? snd (line b)) then negb pressed
     else Z.testbit (ButtonInput m) n) /\
  Z.testbit (DirectionInput (set_line b pressed m)) n
  = (if negb (fst (line b)) && (n =? snd (line b)) then negb pressed
     else Z.testbit (DirectionInput m) n) /\
  IF (set_line b pressed m) = IF m /\
  cells (set_line b pressed m) = cells m.
Proof.
  pose proof (line_nonneg b) as Hk.
  unfold set_line.
  destruct (fst (line b)), pressed;
    cbn [set_ButtonInput set_DirectionInput ButtonInput DirectionInput IF
         cells andb negb];
    rewrite ?testbit_andnot_bit, ?testbit_lor_bit by exact Hk;
    repeat split; destruct (n =? snd (line b)); reflexivity.
Qed.

(** X1. An event of a button changes one bit of one nibble, the one that
    the comment in the source gives it: the bit is 0 after a press and 1
    after a release; every other bit of the two nibbles, the interrupt
    flags, the rest of the memory, the timer and the LCD are as before. *)
Theorem ButtonAction_line (b : Button) (pressed : bool) (gb : Gameboy)
    (n : Z) :
  let h := hw gb in
  let h' := hw (stateOf (ButtonAction b pressed gb)) in
  Z.testbit (ButtonInput (memory h')) n
  = (if fst (line b) && (n =? snd (line b)) then negb pressed
     else Z.testbit (ButtonInput (memory h)) n) /\
  Z.testbit (DirectionInput (memory h')) n
  = (if negb (fst (line b)) && (n =? snd (line b)) then negb pressed
     else Z.testbit (DirectionInput (memory h)) n) /\
  IF (memory h') = IF (memory h) /\
  cells (memory h') = cells (memory h) /\
  timer h' = timer h /\ lcd h' = lcd h.
Proof.
  cbv zeta. rewrite ButtonAction_eq. unfold stateOf.
  cbn [fst snd hw memory timer lcd].
  destruct (set_line_bits b pressed (memory (hw gb)) n)
    as (Hb & Hd & HIF & Hcells).
  repeat split; assumption.
Qed.

Lemma andnot_lor_same (v m : Z) : andnot (Z.lor v m) m = andnot v m.
Proof.
  unfold andnot. apply Z.bits_inj'. intros n Hn.
  rewrite !Z.ldiff_spec, Z.lor_spec.
  now destruct (Z.testbit v n), (Z.testbit m n).
Qed.

Lemma lor_andnot_same (v m : Z) : Z.lor (andnot v m) m = Z.lor v m.
Proof.
  unfold andnot. apply Z.bits_inj'. intros n Hn.
  rewrite !Z.lor_spec, Z.ldiff_spec.
  now destruct (Z.testbit v n), (Z.testbit m n).
Qed.

Lemma lor_lor_same (v m : Z) : Z.lor (Z.lor v m) m = Z.lor v m.
Proof. now rewrite <- Z.lor_assoc, Z.lor_diag. Qed.

Lemma set_line_twice (b : Button) (p1 p2 : bool) (m : Memory) :
  set_line b p2 (set_line b p1 m) = set_line b p2 m.
Proof.
  unfold set_line, set_ButtonInput, set_DirectionInput.
  destruct (fst (line b)), p1, p2; cbn [ButtonInput DirectionInput IF cells];
    now rewrite ?andnot_idempotent, ?andnot_lor_same, ?lor_andnot_same,
      ?lor_lor_same.
Qed.

(** X2. For one button the last event wins: after two events of the same
    button the memory is what the second event alone leaves. *)
Theorem ButtonAction_last_event_wins (b : Button) (p1 p2 : bool)
    (gb : Gameboy) :
  memory (hw (stateOf (ButtonAction b p2 (stateOf (ButtonAction b p1 gb)))))
  = memory (hw (stateOf (ButtonAction b p2 gb))).
Proof.
  rewrite !ButtonAction_eq. unfold stateOf. cbn [fst snd hw memory].
  apply set_line_twice.
Qed.

Lemma lor_bit_set (v k : Z) :
  0 <= k -> Z.testbit v k = true -> Z.lor v (Z.shiftl 1 k) = v.
Proof.
  intros Hk Hbit. apply Z.bits_inj'. intros n Hn.
  rewrite testbit_lor_bit by exact Hk.
  destruct (Z.eqb_spec n k) as [-> | Hne]; [now rewrite Hbit | reflexivity].
Qed.

(** X3. A press followed by a release of a button that was up (its line
    was high) gives back the memory as it was. *)
Theorem ButtonAction_press_release (b : Button) (gb : Gameboy) :
  Z.testbit (if fst (line b) then ButtonInput (memory (hw gb))
             else DirectionInput (memory (hw gb))) (snd (line b)) = true ->
  memory (hw (stateOf (ButtonAction b false
                         (stateOf (ButtonAction b true gb)))))
  = memory (hw gb).
Proof.
  intros Hup. rewrite !ButtonAction_eq.
  unfold stateOf. cbn [fst snd hw memory]. rewrite set_line_twice.
  unfold set_line, set_ButtonInput, set_DirectionInput.
  pose proof (line_nonneg b) as Hk.
  destruct (memory (hw gb)) as [flags buttons directions rest].
  destruct (fst (line b)); cbn [ButtonInput DirectionInput IF cells] in *;
    now rewrite lor_bit_set.
Qed.

End Buttons.

Section ButtonsAtRest.
Import Go Gb GbCtl.

Lemma ButtonAction_press_release_witness :
  Z.testbit (if fst (line ui_Start)
             then ButtonInput (memory (hw Idle.stopped))
             else DirectionInput (memory (hw Idle.stopped)))
            (snd (line ui_Start)) = true /\
  memory (hw (stateOf (ButtonAction ui_Start false
                         (stateOf (ButtonAction ui_Start true Idle.stopped)))))
  = memory (hw Idle.stopped).
Proof.
  split; [reflexivity |].
  apply (ButtonAction_press_release ui_Start Idle.stopped). reflexivity.
Defined.

End ButtonsAtRest.

Section ButtonsTogether.
Import Go Gb GbCtl.
Context `{Devices}.

Lemma andnot_comm (v a b : Z) : andnot (andnot v a) b = andnot (andnot v b) a.
Proof.
  unfold andnot. apply Z.bits_inj'. intros n Hn. rewrite !Z.ldiff_spec.
  now destruct (Z.testbit v n), (Z.testbit a n), (Z.testbit b n).
Qed.

Lemma lor_comm_r (v a b : Z) : Z.lor (Z.lor v a) b = Z.lor (Z.lor v b) a.
Proof.
  apply Z.bits_inj'. intros n Hn. rewrite !Z.lor_spec.
  now destruct (Z.testbit v n), (Z.testbit a n), (Z.testbit b n).
Qed.

Lemma andnot_lor_bits (v j k : Z) :
  0 <= j -> 0 <= k -> j <> k ->
  andnot (Z.lor v (Z.shiftl 1 j)) (Z.shiftl 1 k)
  = Z.lor (andnot v (Z.shiftl 1 k)) (Z.shiftl 1 j).
Proof.
  intros Hj Hk Hne. apply Z.bits_inj'. intros n Hn.
  rewrite testbit_andnot_bit, !testbit_lor_bit, testbit_andnot_bit by lia.
  destruct (Z.eqb_spec n k), (Z.eqb_spec n j); try reflexivity. lia.
Qed.

Lemma set_line_comm (b1 b2 : Button) (p1 p2 : bool) (m : Memory) :
  b1 <> b2 ->
  set_line b2 p2 (set_line b1 p1 m) = set_line b1 p1 (set_line b2 p2 m).
Proof.
  intros Hne.
  assert (fst (line b1) = fst (line b2) -> snd (line b1) <> snd (line b2))
    as Hlines by (destruct b1, b2; simpl; congruence).
  pose proof (line_nonneg b1). pose proof (line_nonneg b2).
  unfold set_line, set_ButtonInput, set_DirectionInput.
  destruct (fst (line b1)), (fst (line b2)), p1, p2;
    cbn [ButtonInput DirectionInput IF cells]; try reflexivity;
    f_equal;
    first [ apply andnot_comm | apply lor_comm_r
          | apply andnot_lor_bits;
              [lia | lia | specialize (Hlines eq_refl); lia]
          | symmetry; apply andnot_lor_bits;
              [lia | lia | specialize (Hlines eq_refl); lia] ].
Qed.

(** X4. Events of two different buttons commute: in either order they
    leave the same Gameboy and make the same calls. *)
Theorem ButtonAction_commute (b1 b2 : Button) (p1 p2 : bool) (gb : Gameboy) :
  b1 <> b2 ->
  (ButtonAction b1 p1 ;; ButtonAction b2 p2) gb
  = (ButtonAction b2 p2 ;; ButtonAction b1 p1) gb.
Proof.
  intros Hne. unfold mbind, M_bind. rewrite !ButtonAction_eq.
  cbn [hw dispatch memory timer lcd dur frame].
  now rewrite (set_line_comm b1 b2 p1 p2).
Qed.

Lemma nibble_bits (v : Z) :
  0 <= v < 16 <-> forall n, 4 <= n -> Z.testbit v n = false.
Proof.
  split.
  - intros Hv n Hn. destruct (Z.eq_dec v 0) as [-> | Hnz];
      [apply Z.bits_0 |].
    apply Z.bits_above_log2; [lia |].
    assert (Z.log2 v < 4) by (apply Z.log2_lt_pow2; lia). lia.
  - intros Hbits.
    assert (0 <= v) as Hpos.
    { destruct (Z_lt_le_dec v 0) as [Hneg | Hge]; [| exact Hge].
      destruct (Z.bits_iff_neg_ex v) as [Hex _].
      destruct (Hex Hneg) as (k & Hk).
      specialize (Hk (Z.max 4 (k + 1)) ltac:(lia)).
      rewrite Hbits in Hk by lia. discriminate. }
    split; [exact Hpos |].
    destruct (Z.eq_dec v 0) as [-> | Hnz]; [lia |].
    change 16 with (2 ^ 4). apply Z.log2_lt_pow2; [lia |].
    destruct (Z_lt_le_dec (Z.log2 v) 4) as [Hlt | Hge]; [exact Hlt |].
    pose proof (Z.bit_log2 v ltac:(lia)) as Htop.
    rewrite Hbits in Htop by lia. discriminate.
Qed.

(** X5. The nibbles stay nibbles: if both are below 16 before a button
    event, both are below 16 after it. *)
Theorem ButtonAction_keeps_nibbles (b : Button) (pressed : bool)
    (gb : Gameboy) :
  0 <= ButtonInput (memory (hw gb)) < 16 ->
  0 <= DirectionInput (memory (hw gb)) < 16 ->
  let m' := memory (hw (stateOf (ButtonAction b pressed gb))) in
  0 <= ButtonInput m' < 16 /\ 0 <= DirectionInput m' < 16.
Proof.
  intros Hb Hd. cbv zeta.
  rewrite nibble_bits in Hb. rewrite nibble_bits in Hd.
  assert (0 <= snd (line b) < 4) as Hk by (destruct b; simpl; lia).
  rewrite ButtonAction_eq. unfold stateOf. cbn [fst snd hw memory].
  split; apply nibble_bits; intros n Hn.
  - destruct (set_line_bits b pressed (memory (hw gb)) n) as (Hbit & _).
    rewrite Hbit.
    destruct (Z.eqb_spec n (snd (line b))); [lia |].
    rewrite andb_false_r. now apply Hb.
  - destruct (set_line_bits b pressed (memory (hw gb)) n) as (_ & Hbit & _).
    rewrite Hbit.
    destruct (Z.eqb_spec n (snd (line b))); [lia |].
    rewrite andb_false_r. now apply Hd.
Qed.

End ButtonsTogether.

Section ButtonsTogetherAtRest.
Import Go Gb GbCtl.

Lemma ButtonAction_commute_witness :
  ui_A <> ui_B /\
  (ButtonAction ui_A true ;; ButtonAction ui_B false) Idle.stopped
  = (ButtonAction ui_B false ;; ButtonAction ui_A true) Idle.stopped.
Proof.
  split; [discriminate |].
  apply (ButtonAction_commute ui_A ui_B true false Idle.stopped).
  discriminate.
Defined.

Lemma ButtonAction_keeps_nibbles_witness :
  0 <= ButtonInput (memory (hw Idle.stopped)) < 16 /\
  0 <= DirectionInput (memory (hw Idle.stopped)) < 16 /\
  0 <= ButtonInput
         (memory (hw (stateOf (ButtonAction ui_Up true Idle.stopped)))) < 16 /\
  0 <= DirectionInput
         (memory (hw (stateOf (ButtonAction ui_Up true Idle.stopped)))) < 16.
Proof.
  assert (0 <= ButtonInput (memory (hw Idle.stopped)) < 16) as Hb
    by (simpl; lia).
  assert (0 <= DirectionInput (memory (hw Idle.stopped)) < 16) as Hd
    by (simpl; lia).
  split; [exact Hb |]. split; [exact Hd |].
  exact (ButtonAction_keeps_nibbles ui_Up true Idle.stopped Hb Hd).
Defined.

End ButtonsTogetherAtRest.

(** ** Speed controls *)

Section Pace.
Import Go Gb GbCtl.
Context `{Devices}.

Lemma int_small (x : Z) : - 2 ^ 63 <= x < 2 ^ 63 -> int x = x.
Proof. intros Hx. unfold int. rewrite Z.mod_small; lia. Qed.

(** X6. [Slower] and then [Faster] give back the Gameboy as it was, as
    long as the doubled duration fits the 64 bits of a [time.Duration]. *)
Theorem Slower_then_Faster (gb : Gameboy) :
  - 2 ^ 62 <= dur gb < 2 ^ 62 ->
  stateOf ((Slower ;; Faster) gb) = gb.
Proof.
  intros Hdur. destruct gb as [h d f]. cbn [dur] in Hdur.
  unfold stateOf, mbind, M_bind, Slower, Faster, onDur. cbn [fst snd hw dur
    frame]. f_equal.
  rewrite int_small by lia. unfold div. apply Z.quot_mul. lia.
Qed.

Lemma speeds_Faster (n : nat) (gb : Gameboy) :
  stateOf (speeds (replicate n KeyFaster) gb)
  = {| hw := hw gb; dur := Z.quot (dur gb) (2 ^ Z.of_nat n);
       frame := frame gb |}.
Proof.
  revert gb. induction n as [| n IH]; intros gb.
  - destruct gb as [h d f]. unfold stateOf. cbn. now rewrite Z.quot_1_r.
  - change (speeds (replicate (S n) KeyFaster))
      with (Faster ;; speeds (replicate n KeyFaster)).
    unfold mbind, M_bind, Faster, onDur.
    specialize (IH {| hw := hw gb; dur := div (dur gb) 2;
                      frame := frame gb |}).
    unfold stateOf in *.
    destruct (speeds (replicate n KeyFaster) _) as [[u gb'] calls].
    cbn [fst snd] in *. rewrite IH. cbn [hw dur frame]. f_equal.
    unfold div. rewrite Z.quot_quot by lia. f_equal.
    rewrite Nat2Z.inj_succ, Z.pow_succ_r by lia. reflexivity.
Qed.

(** X7. [n] calls of [Faster] divide the frame duration by 2^n, rounding
    toward zero, and change nothing else. *)
Theorem Faster_n_times (n : nat) (gb : Gameboy) :
  let gb' := stateOf (speeds (replicate n KeyFaster) gb) in
  dur gb' = Z.quot (dur gb) (2 ^ Z.of_nat n) /\
  hw gb' = hw gb /\ frame gb' = frame gb.
Proof. cbv zeta. rewrite speeds_Faster. repeat split. Qed.

(** X8. A Gameboy that is not created fast has lost its pacing for good
    after 24 calls of [Faster]: the frame duration is 0. *)
Theorem Faster_24_times_uncaps (n : nat) (devices : Hardware) :
  (24 <= n)%nat ->
  dur (stateOf (speeds (replicate n KeyFaster) (NewGameboy false devices)))
  = 0.
Proof.
  intros Hn. rewrite speeds_Faster. cbn [dur NewGameboy].
  apply Z.quot_small. unfold frameDuration. split; [lia |].
  apply Z.lt_le_trans with (2 ^ 24); [reflexivity |].
  apply Z.pow_le_mono_r; lia.
Qed.

(** X9. A frame duration of 0 (a Gameboy created fast, or one made fast by
    [Faster]) stays 0 whatever speed keys follow: [Slower] doubles 0. *)
Theorem zero_duration_stays (ks : list Speed) (gb : Gameboy) :
  dur gb = 0 -> dur (stateOf (speeds ks gb)) = 0.
Proof.
  revert gb. induction ks as [| k ks IH]; intros gb Hdur; [exact Hdur |].
  change (speeds (k :: ks)) with (speed k ;; speeds ks).
  unfold mbind, M_bind.
  assert (dur (stateOf (speed k gb)) = 0) as Hstep.
  { destruct k; unfold stateOf, speed, Faster, Slower, onDur;
      cbn [fst snd dur]; rewrite Hdur; reflexivity. }
  specialize (IH _ Hstep). unfold stateOf in *.
  destruct (speed k gb) as [[u gb1] calls1]. cbn [fst snd] in *.
  destruct (speeds ks gb1) as [[u2 gb2] calls2]. exact IH.
Qed.

End Pace.

Section PaceAtRest.
Import Go Gb GbCtl.

Lemma Slower_then_Faster_witness :
  - 2 ^ 62 <= dur (NewGameboy false (hw Idle.stopped)) < 2 ^ 62 /\
  stateOf ((Slower ;; Faster) (NewGameboy false (hw Idle.stopped)))
  = NewGameboy false (hw Idle.stopped).
Proof.
  assert (- 2 ^ 62 <= dur (NewGameboy false (hw Idle.stopped)) < 2 ^ 62)
    as Hdur by (simpl; unfold frameDuration; lia).
  split; [exact Hdur |].
  exact (Slower_then_Faster (NewGameboy false (hw Idle.stopped)) Hdur).
Defined.

Lemma Faster_24_times_uncaps_witness :
  (24 <= 24)%nat /\
  dur (stateOf (speeds (replicate 24 KeyFaster)
                  (NewGameboy false (hw Idle.stopped)))) = 0.
Proof.
  split; [lia |].
  apply (Faster_24_times_uncaps 24 (hw Idle.stopped)). lia.
Defined.

Lemma zero_duration_stays_witness :
  dur (NewGameboy true (hw Idle.stopped)) = 0 /\
  dur (stateOf (speeds [KeySlower; KeySlower; KeyFaster]
                  (NewGameboy true (hw Idle.stopped)))) = 0.
Proof.
  split; [reflexivity |].
  apply (zero_duration_stays [KeySlower; KeySlower; KeyFaster]
           (NewGameboy true (hw Idle.stopped))).
  reflexivity.
Defined.

End PaceAtRest.

(** ** The main loops *)

Section MainLoops.
Import Go Gb GbCtl.
Context `{Devices}.

Lemma sleeps_app (l1 l2 : list Call) :
  sleeps (l1 ++ l2) = sleeps l1 ++ sleeps l2.
Proof. apply omap_app. Qed.

Lemma sleeps_cycles (n : nat) : sleeps (concat (replicate n cycle_calls)) = [].
Proof.
  induction n as [| n IH]; [reflexivity |].
  cbn [replicate concat]. rewrite sleeps_app, IH. reflexivity.
Qed.

Lemma sleeps_runFrame (gui : option Gui) (deadline : Z) (gb : Gameboy) :
  sleeps (callsOf (runFrame gui deadline gb)) = [deadline].
Proof.
  rewrite runFrame_eq. unfold callsOf. cbn [snd].
  rewrite !sleeps_app, sleeps_cycles. now destruct gui.
Qed.

Lemma stateOf_triple {A : Type} (a : A) (gb : Gameboy) (calls : list Call) :
  stateOf (a, gb, calls) = gb.
Proof. reflexivity. Qed.

Lemma callsOf_triple {A : Type} (a : A) (gb : Gameboy) (calls : list Call) :
  callsOf (a, gb, calls) = calls.
Proof. reflexivity. Qed.

(** One pass that runs a frame. *)
Lemma Run_loop_frame (polls : list bool) (gui : option Gui) (deadline : Z)
    (gb : Gameboy) :
  Run_loop (false :: polls) gui deadline gb
  = let r := runFrame gui (deadline + dur gb) gb in
    let r' := Run_loop polls gui (deadline + dur gb) (stateOf r) in
    (fst (fst r'), stateOf r', callsOf r ++ callsOf r').
Proof.
  cbv zeta. cbn [Run_loop]. unfold frame_or_return, stateOf, callsOf.
  unfold mbind, M_bind, mret, M_ret, getGb.
  destruct (runFrame gui (deadline + dur gb) gb) as [[u gb1] calls1].
  cbn [fst snd].
  destruct (Run_loop polls gui (deadline + dur gb) gb1) as [[o gb2] calls2].
  cbn [fst snd]. now rewrite app_nil_r.
Qed.

Lemma Run_loop_stop (polls : list bool) (gui : option Gui) (deadline : Z)
    (gb : Gameboy) :
  Run_loop (true :: polls) gui deadline gb = (Returned, gb, []).
Proof. reflexivity. Qed.

(** X10. [Run] runs one frame for each poll of [ctx.Done()] that is
    answered no, and returns at the first yes. The frames leave what
    [runFrame] leaves, one after the other; the k-th frame sleeps until
    [now + k * dur], the deadlines being accumulated and not taken from the
    clock again. *)
Theorem Run_frames (polls : list bool) (gui : option Gui) (now : Z)
    (gb : Gameboy) :
  let r := Run polls gui now gb in
  let n := frames_polled polls in
  fst (fst r) = (if decide (n < length polls)%nat then Returned else Running)
  /\ count is_lcd_FrameEnd (callsOf r) = n
  /\ sleeps (callsOf r)
     = (fun k => now + k * dur gb) <$> seqZ 1 (Z.of_nat n)
  /\ hw (stateOf r) = Nat.iter n frame_hardware (hw gb)
  /\ frame (stateOf r) = Nat.iter n (fun f => int (f + 1)) (frame gb)
  /\ dur (stateOf r) = dur gb.
Proof.
  cbv zeta. unfold Run. revert now gb.
  induction polls as [| [|] polls IH]; intros now gb.
  - cbn. repeat split; destruct (decide _); try reflexivity; lia.
  - rewrite Run_loop_stop. cbn [frames_polled]. unfold stateOf, callsOf.
    cbn [fst snd]. repeat split.
  - rewrite Run_loop_frame. cbv zeta. cbn [frames_polled].
    specialize (IH (now + dur gb) (stateOf (runFrame gui (now + dur gb) gb))).
    destruct IH as (Hout & Hends & Hsleeps & Hhw & Hframe & Hdur).
    rewrite !stateOf_triple, !callsOf_triple. cbn [fst snd].
    assert (stateOf (runFrame gui (now + dur gb) gb)
            = {| hw := frame_hardware (hw gb); dur := dur gb;
                 frame := int (frame gb + 1) |}) as Hstate
      by now rewrite runFrame_eq.
    rewrite Hstate in *. cbn [hw dur frame] in *.
    split; [| split; [| split; [| split; [| split]]]].
    + rewrite Hout.
      destruct (decide _) as [Hlt | Hge], (decide _) as [Hlt' | Hge'];
        try reflexivity; exfalso; cbn [length] in *;
        [clear - Hlt Hge' | clear - Hge Hlt']; lia.
    + rewrite count_app, Hends, runFrame_count.
      change (count is_lcd_FrameEnd cycle_calls) with 0%nat.
      destruct gui; cbn [count List.filter length is_lcd_FrameEnd]; lia.
    + rewrite sleeps_app, sleeps_runFrame, Hsleeps.
      rewrite (seqZ_cons 1 (Z.of_nat (S (frames_polled polls)))) by lia.
      cbn [fmap list_fmap app].
      f_equal; try lia.
      replace (Z.pred (Z.of_nat (S (frames_polled polls))))
        with (Z.of_nat (frames_polled polls)) by lia.
      change (Z.succ 1) with (1 + 1).
      rewrite <- fmap_add_seqZ, <- list_fmap_compose.
      apply list_fmap_ext. intros i k Hk. cbn. lia.
    + rewrite Hhw. symmetry. apply Nat.iter_succ_r.
    + rewrite Hframe. symmetry.
      exact (Nat.iter_succ_r _ (fun f => int (f + 1)) (frame gb)).
    + exact Hdur.
Qed.

End MainLoops.

Section TimeLoop.
Import Go Gb GbCtl.
Context `{Devices}.

(** A block of the inner loop of [Time] against the loop of [Run]: either
    the block ends the loop as [Run] does, or it has run [n] frames and
    [Run] goes on from there in the same way. *)
Lemma Time_block_Run (n : nat) (polls : list bool) (gui : option Gui)
    (deadline : Z) (gb : Gameboy) :
  match Time_block n polls gui deadline gb with
  | (inl outcome, gb', calls) =>
      Run_loop polls gui deadline gb = (outcome, gb', calls) /\
      (frames_polled polls < n)%nat
  | (inr (polls', deadline'), gb', calls) =>
      (frames_polled polls = n + frames_polled polls')%nat /\
      (length polls = n + length polls')%nat /\
      Run_loop polls gui deadline gb
      = (let r := Run_loop polls' gui deadline' gb' in
         (fst (fst r), stateOf r, calls ++ callsOf r))
  end.
Proof.
  revert polls deadline gb. induction n as [| n IH]; intros polls deadline gb.
  - cbn. repeat split. now destruct (Run_loop polls gui deadline gb) as [[o s] c].
  - destruct polls as [| [|] polls].
    + cbn. split; [reflexivity | lia].
    + cbn. split; [reflexivity | lia].
    + rewrite Run_loop_frame. cbv zeta.
      cbn [Time_block]. unfold frame_or_return.
      unfold mbind at 1, M_bind at 1. unfold mbind at 1, M_bind at 1.
      unfold mbind at 1, M_bind at 1.
      unfold getGb at 1. unfold mret at 1, M_ret at 1.
      destruct (runFrame gui (deadline + dur gb) gb) as [[u gb1] calls1].
      rewrite !stateOf_triple, !callsOf_triple. cbn [fst snd].
      specialize (IH polls (deadline + dur gb) gb1).
      destruct (Time_block n polls gui (deadline + dur gb) gb1)
        as [[[outcome | [polls' deadline']] gb2] calls2].
      * destruct IH as [Hrun Hlt]. rewrite Hrun.
        rewrite stateOf_triple, callsOf_triple. cbn [fst snd frames_polled].
        rewrite app_nil_r. cbn [app]. split; [reflexivity | lia].
      * destruct IH as (Hframes & Hlen & Hrun). rewrite Hrun. cbv zeta.
        rewrite !stateOf_triple, !callsOf_triple.
        cbn [fst snd frames_polled length]. rewrite app_nil_r. cbn [app].
        rewrite app_assoc. repeat split; lia.
Qed.

Lemma Time_loop_Run (fuel : nat) (polls : list bool) (gui : option Gui)
    (deadline : Z) (printed : nat) (gb : Gameboy) :
  (length polls < fuel)%nat ->
  Time_loop fuel polls gui deadline printed gb
  = (let r := Run_loop polls gui deadline gb in
     ((fst (fst r), (printed + frames_polled polls / 60)%nat),
      stateOf r, callsOf r)).
Proof.
  revert polls deadline printed gb.
  induction fuel as [| fuel IH]; intros polls deadline printed gb Hfuel;
    [lia |].
  cbn [Time_loop]. unfold mbind at 1, M_bind at 1.
  pose proof (Time_block_Run 60 polls gui deadline gb) as Hblock.
  destruct (Time_block 60 polls gui deadline gb)
    as [[[outcome | [polls' deadline']] gb1] calls1].
  - destruct Hblock as [Hrun Hlt]. rewrite Hrun. cbv zeta.
    rewrite stateOf_triple, callsOf_triple. cbn [fst snd].
    unfold mret, M_ret. rewrite app_nil_r.
    rewrite Nat.div_small by exact Hlt. now rewrite Nat.add_0_r.
  - destruct Hblock as (Hframes & Hlen & Hrun). rewrite Hrun. cbv zeta.
    rewrite IH by lia. cbv zeta.
    rewrite !stateOf_triple, !callsOf_triple. cbn [fst snd].
    do 2 f_equal. f_equal. rewrite Hframes.
    replace (60 + frames_polled polls')%nat
      with (frames_polled polls' + 1 * 60)%nat by lia.
    rewrite Nat.div_add by lia. lia.
Qed.

(** X11. [Time] runs the frames that [Run] runs on the same answers of
    [ctx.Done()]: it ends the same way, leaves the same Gameboy and makes
    the same calls. It prints one timing line for each complete block of
    60 frames. *)
Theorem Time_as_Run (polls : list bool) (gui : option Gui) (now : Z)
    (gb : Gameboy) :
  Time polls gui now gb
  = (let r := Run polls gui now gb in
     ((fst (fst r), (frames_polled polls / 60)%nat), stateOf r, callsOf r)).
Proof.
  unfold Time, Run. rewrite Time_loop_Run by lia. reflexivity.
Qed.

End TimeLoop.

(** ** More on the LCD driver *)

Section TickMore.
Import Go Mem Lcd.

(** X12. [Tick] writes three registers and nothing else: every address
    but [IF], [STAT] and [LY] reads as before, and of the interrupt flags
    only bit 0 can change, from 0 to 1. *)
Theorem Tick_footprint (memory : gmap Z Z) (cycle : Z) :
  exists memory', Tick memory cycle = Some memory' /\
    (forall addr, addr <> IF -> addr <> STAT -> addr <> LY ->
       Read memory' addr = Read memory addr) /\
    (forall n, n <> 0 ->
       Z.testbit (Read memory' IF) n = Z.testbit (Read memory IF) n) /\
    (Z.testbit (Read memory IF) 0 = true ->
     Z.testbit (Read memory' IF) 0 = true).
Proof.
  eexists. split; [apply Tick_eq |]. cbv zeta.
  split; [| split].
  - intros addr HIF HSTAT HLY. rewrite !Read_Write_ne by congruence.
    destruct (uint8 (div cycle 114) =? 144); [| reflexivity].
    now rewrite Read_Write_ne by congruence.
  - intros n Hn. rewrite !Read_Write_ne by discriminate.
    destruct (uint8 (div cycle 114) =? 144); [| reflexivity].
    rewrite Read_Write_eq.
    destruct (Z_lt_le_dec n 0) as [Hneg | Hpos];
      [now rewrite !Z.testbit_neg_r by lia |].
    destruct (Z_lt_le_dec n 8) as [Hlow | Hhigh].
    + rewrite uint8_testbit, Z.lor_spec by lia.
      change 0x01 with (2 ^ 0). rewrite Z.pow2_bits_eqb by lia.
      destruct (Z.eqb_spec 0 n); [lia | apply orb_false_r].
    + pose proof (uint8_range (Z.lor (Read memory IF) 0x01)).
      pose proof (Read_range memory IF).
      rewrite !(Z.bits_above_log2) ; try reflexivity; try lia.
      * destruct (Z.eq_dec (Read memory IF) 0) as [-> | Hnz]; [simpl; lia |].
        assert (Z.log2 (Read memory IF) < 8)
          by (apply Z.log2_lt_pow2; lia). lia.
      * destruct (Z.eq_dec (uint8 (Z.lor (Read memory IF) 0x01)) 0)
          as [-> | Hnz]; [simpl; lia |].
        assert (Z.log2 (uint8 (Z.lor (Read memory IF) 0x01)) < 8)
          by (apply Z.log2_lt_pow2; lia). lia.
  - intros Hset. rewrite !Read_Write_ne by discriminate.
    destruct (uint8 (div cycle 114) =? 144); [| exact Hset].
    rewrite Read_Write_eq, uint8_testbit, Z.lor_spec by lia.
    now rewrite Hset.
Qed.

End TickMore.

Section TilesMore.
Import Go Mem Lcd.

Lemma int8_range (x : Z) : -128 <= int8 x < 128.
Proof.
  unfold int8. pose proof (Z.mod_pos_bound (x + 128) 256 ltac:(lia)). lia.
Qed.

Lemma int8_byte (n : Z) :
  0 <= n < 256 -> int8 n = if n <? 128 then n else n - 256.
Proof.
  intros Hn. unfold int8. destruct (Z.ltb_spec n 128).
  - rewrite Z.mod_small; lia.
  - replace (n + 128) with (n - 128 + 1 * 256) by lia.
    rewrite Z.mod_add, Z.mod_small; lia.
Qed.

(** The address of a tile, in either mode. *)
Lemma tileDataAddr_tile (mem : gmap Z Z) (tileX tileY : Z) :
  let addr := tileDataAddr mem tileX tileY in
  0x8000 <= addr <= 0x97F0 /\ addr `mod` 16 = 0 /\
  (lowTileDataSelect mem = true -> addr <= 0x8FF0) /\
  (lowTileDataSelect mem = false -> 0x8800 <= addr).
Proof.
  cbv zeta. unfold tileDataAddr. cbv zeta.
  set (tileNumber := Read mem _).
  pose proof (Read_range mem
    (if highBgTileMapDisplaySelect mem
     then uint16 (0x9c00 + uint16 (uint16 tileY * 32 + uint16 tileX))
     else uint16 (0x9800 + uint16 (uint16 tileY * 32 + uint16 tileX))))
    as Hbyte.
  fold tileNumber in Hbyte.
  pose proof (int8_range tileNumber) as Hsigned.
  unfold lowTileAbsoluteAddress, highTileAbsoluteAddress.
  rewrite (uint16_small tileNumber) by lia.
  destruct (lowTileDataSelect mem).
  - rewrite uint16_small by lia.
    replace (0x8000 + tileNumber * 16) with (2048 * 16 + tileNumber * 16)
      by lia.
    rewrite <- Z.mul_add_distr_r, Z.mod_mul by lia.
    repeat split; intros; try discriminate; lia.
  - rewrite uint16_small by lia.
    replace (0x9000 + int8 tileNumber * 16)
      with ((2304 + int8 tileNumber) * 16) by lia.
    rewrite Z.mod_mul by lia.
    repeat split; intros; try discriminate; lia.
Qed.

(** X13. Whatever the memory holds, the address that [tileDataAddr] gives
    is that of a tile of the tile data area: a multiple of 16 between
    0x8000 and 0x97F0, below 0x9000 in the unsigned mode and from 0x8800 on
    in the signed mode. *)
Theorem tileDataAddr_in_tile_data (mem : gmap Z Z) (tileX tileY : Z) :
  let addr := tileDataAddr mem tileX tileY in
  0x8000 <= addr <= 0x97F0 /\ addr `mod` 16 = 0 /\
  (lowTileDataSelect mem = true -> addr <= 0x8FF0) /\
  (lowTileDataSelect mem = false -> 0x8800 <= addr).
Proof. apply tileDataAddr_tile. Qed.

(** X14. The two ways of addressing tile data share the tiles 128 to 255
    and are 0x1000 apart on the tiles 0 to 127. *)
Theorem tile_addressing_modes (tileNumber : Z) :
  0 <= tileNumber < 256 ->
  highTileAbsoluteAddress (int8 tileNumber)
  = if tileNumber <? 128 then lowTileAbsoluteAddress tileNumber + 0x1000
    else lowTileAbsoluteAddress tileNumber.
Proof.
  intros Hn. unfold lowTileAbsoluteAddress, highTileAbsoluteAddress.
  rewrite int8_byte by exact Hn. rewrite (uint16_small tileNumber) by lia.
  destruct (Z.ltb_spec tileNumber 128); rewrite !uint16_small; lia.
Qed.

Lemma tile_addressing_modes_witness :
  0 <= 200 < 256 /\
  highTileAbsoluteAddress (int8 200) = 0x8C80 /\
  lowTileAbsoluteAddress 200 = 0x8C80.
Proof.
  split; [lia |].
  pose proof (tile_addressing_modes 200 ltac:(lia)) as Hmodes.
  split; [rewrite Hmodes |]; reflexivity.
Defined.

(** X15. [pixel] panics exactly on a column outside 0 to 7. *)
Theorem pixel_panics_iff (mem : gmap Z Z) (memoryAddr bit : Z) :
  pixel mem memoryAddr bit = None <-> ~ 0 <= bit <= 7.
Proof.
  split.
  - intros Hnone Hbit. rewrite pixel_bits in Hnone by lia. discriminate.
  - intros Hbit. unfold pixel.
    destruct bit as [| q | q]; [lia | | reflexivity].
    do 3 (destruct q as [q | q |]; try reflexivity; try lia).
Qed.

(** The colour of a position depends on the memory through LCDC and the
    video memory only. *)
Lemma drawTiles_pixel_ext (mem1 mem2 : gmap Z Z) (y x : Z) :
  0 <= y < 144 -> 0 <= x < 160 ->
  Read mem1 LCDC = Read mem2 LCDC ->
  (forall addr, 0x8000 <= addr < 0xA000 -> Read mem1 addr = Read mem2 addr) ->
  drawTiles_pixel mem1 y x = drawTiles_pixel mem2 y x.
Proof.
  intros Hy Hx HLCDC Hvram.
  unfold drawTiles_pixel. cbv zeta.
  rewrite !Z.add_0_r, (uint8_small x), (uint8_small y) by lia.
  unfold div, rem. rewrite !Z.quot_div_nonneg, !Z.rem_mod_nonneg by lia.
  assert (0 <= x / 8 < 20) as Htx.
  { split; [apply Z.div_pos; lia | apply Z.div_lt_upper_bound; lia]. }
  assert (0 <= y / 8 < 18) as Hty.
  { split; [apply Z.div_pos; lia | apply Z.div_lt_upper_bound; lia]. }
  assert (0 <= x `mod` 8 < 8) as Hox by (apply Z.mod_pos_bound; lia).
  assert (0 <= y `mod` 8 < 8) as Hoy by (apply Z.mod_pos_bound; lia).
  assert (tileDataAddr mem1 (x / 8) (y / 8) = tileDataAddr mem2 (x / 8) (y / 8))
    as Haddr.
  { unfold tileDataAddr, highBgTileMapDisplaySelect, lowTileDataSelect.
    cbv zeta. rewrite HLCDC.
    rewrite (uint16_small (x / 8)), (uint16_small (y / 8)) by lia.
    rewrite (uint16_small (y / 8 * 32 + x / 8)) by lia.
    destruct (Z.testbit (Read mem2 LCDC) 3);
      rewrite uint16_small by lia; rewrite Hvram by lia; reflexivity. }
  rewrite Haddr.
  pose proof (tileDataAddr_tile mem2 (x / 8) (y / 8)) as Htile.
  cbv zeta in Htile. destruct Htile as (Htile & _).
  set (tile := tileDataAddr mem2 (x / 8) (y / 8)) in *.
  rewrite (uint16_small (y `mod` 8)) by lia.
  rewrite (uint16_small (tile + y `mod` 8 * 2)) by lia.
  rewrite !pixel_bits by lia.
  rewrite (uint16_small (tile + y `mod` 8 * 2 + 1)) by lia.
  now rewrite !Hvram by lia.
Qed.

(** X16. The frame is a function of LCDC and the video memory
    0x8000-0x9FFF: two memories that agree there give the same frame data,
    whatever the previous frame data, the scroll registers, the palettes
    and the rest of the memory are. *)
Theorem FrameData_depends_on_vram (lcd1 lcd2 : LCD) (mem1 mem2 : gmap Z Z) :
  length (data lcd1) = Z.to_nat 23040 ->
  length (data lcd2) = Z.to_nat 23040 ->
  Read mem1 LCDC = Read mem2 LCDC ->
  (forall addr, 0x8000 <= addr < 0xA000 -> Read mem1 addr = Read mem2 addr) ->
  FrameData lcd1 mem1 = FrameData lcd2 mem2.
Proof.
  intros Hlen1 Hlen2 HLCDC Hvram.
  destruct (FrameData_lookup lcd1 mem1 Hlen1) as (d1 & Hd1 & Hl1 & Hall1).
  destruct (FrameData_lookup lcd2 mem2 Hlen2) as (d2 & Hd2 & Hl2 & Hall2).
  rewrite Hd1, Hd2. f_equal. apply list_eq. intros i.
  destruct (decide (i < Z.to_nat 23040)%nat) as [Hi | Hi].
  - rewrite <- (index_of_div_mod i).
    assert (0 <= Z.of_nat i `mod` 160 < 160) by (apply Z.mod_pos_bound; lia).
    assert (0 <= Z.of_nat i / 160 < 144).
    { split; [apply Z.div_pos; lia | apply Z.div_lt_upper_bound; lia]. }
    rewrite Hall1, Hall2 by lia. now apply drawTiles_pixel_ext.
  - rewrite !lookup_ge_None_2 by lia. reflexivity.
Qed.

Lemma FrameData_depends_on_vram_witness :
  length (data NewLCD) = Z.to_nat 23040 /\
  length (data {| data := replicate (Z.to_nat 23040) 3 |}) = Z.to_nat 23040 /\
  Read Sample.one_dark_pixel LCDC
  = Read (<[SCX := 7]> (<[BGP := 0x1b]> Sample.one_dark_pixel)) LCDC /\
  FrameData NewLCD Sample.one_dark_pixel
  = FrameData {| data := replicate (Z.to_nat 23040) 3 |}
      (<[SCX := 7]> (<[BGP := 0x1b]> Sample.one_dark_pixel)).
Proof.
  split; [apply length_replicate |].
  split; [apply length_replicate |].
  split; [reflexivity |].
  apply (FrameData_depends_on_vram NewLCD
           {| data := replicate (Z.to_nat 23040) 3 |}
           Sample.one_dark_pixel
           (<[SCX := 7]> (<[BGP := 0x1b]> Sample.one_dark_pixel)));
    [apply length_replicate | apply length_replicate | reflexivity |].
  intros addr Haddr. unfold Read.
  rewrite !lookup_insert_ne by (unfold SCX, BGP; lia). reflexivity.
Defined.

End TilesMore.

(** ** The tile renderer that is not called *)

Section DrawTiles2.
Import Go Mem Lcd LcdTiles.

Lemma for_each_preserves {S : Type} (P : S -> Prop) (l : list Z)
    (body : Z -> S -> option S) (s s' : S) :
  (forall i s0 s1, i ∈ l -> body i s0 = Some s1 -> P s0 -> P s1) ->
  for_each l body s = Some s' -> P s -> P s'.
Proof.
  revert s. induction l as [| i l IH]; intros s Hbody Hrun Hs.
  - injection Hrun as <-. exact Hs.
  - cbn in Hrun. destruct (body i s) as [s1 |] eqn:Hi; [| discriminate].
    apply (IH s1); [| exact Hrun |].
    + intros j s0 s2 Hj. apply Hbody. now apply elem_of_cons; right.
    + apply (Hbody i s s1); [apply elem_of_cons; now left | exact Hi | exact Hs].
Qed.

(** A loop panics if one of its iterations panics in every state that the
    iterations before it can leave. *)
Lemma for_each_None_at {S : Type} (P : S -> Prop) (done rest : list Z)
    (i : Z) (body : Z -> S -> option S) (s : S) :
  (forall j s0 s1, j ∈ done -> body j s0 = Some s1 -> P s0 -> P s1) ->
  (forall s0, P s0 -> body i s0 = None) ->
  P s -> for_each (done ++ i :: rest) body s = None.
Proof.
  revert s. induction done as [| j done IH]; intros s Hdone Hi Hs.
  - cbn. now rewrite Hi.
  - cbn. destruct (body j s) as [s1 |] eqn:Hj; [| reflexivity].
    apply IH; [| exact Hi |].
    + intros k s0 s2 Hk. apply Hdone. now apply elem_of_cons; right.
    + apply (Hdone j s s1); [apply elem_of_cons; now left | exact Hj | exact Hs].
Qed.

Lemma store_length (a a' : list Z) (i v : Z) :
  store a i v = Some a' -> length a' = length a.
Proof.
  unfold store. destruct (_ && _); [| discriminate].
  intros [= <-]. apply length_insert.
Qed.

Section WithReadRegion.
Variable ReadRegion : gmap Z Z -> Z -> Z -> list Z.

Lemma drawTiles2_col_full (y x row a b col : Z) (d d' : list Z) :
  drawTiles2_col y x row a b col d = Some d' -> length d = Z.to_nat 23040 -> length d' = Z.to_nat 23040.
Proof.
  unfold drawTiles2_col. intros Hstore Hd.
  now rewrite (store_length _ _ _ _ Hstore).
Qed.

Lemma drawTiles2_row_full (tile : list Z) (y x row : Z) (d d' : list Z) :
  drawTiles2_row tile y x row d = Some d' -> length d = Z.to_nat 23040 -> length d' = Z.to_nat 23040.
Proof.
  unfold drawTiles2_row, for_range.
  destruct (load tile _) as [a |]; [| discriminate].
  destruct (load tile _) as [b |]; [| discriminate].
  apply (for_each_preserves (fun d => length d = Z.to_nat 23040)).
  intros col s0 s1 _. apply drawTiles2_col_full.
Qed.

Lemma drawTiles2_tile_full (mem : gmap Z Z) (y x : Z) (d d' : list Z) :
  drawTiles2_tile ReadRegion mem y x d = Some d' -> length d = Z.to_nat 23040 -> length d' = Z.to_nat 23040.
Proof.
  unfold drawTiles2_tile, for_range. cbv zeta.
  apply (for_each_preserves (fun d => length d = Z.to_nat 23040)).
  intros row s0 s1 _. apply drawTiles2_row_full.
Qed.

(** Row 2 of the tiles of the map row 11 is line 90 of the 256-pixel-wide
    picture: its first pixel has index 90 * 256 = 23040, one past the end
    of the array. *)
Lemma drawTiles2_col_past_the_end (a b : Z) (d : list Z) :
  length d = Z.to_nat 23040 -> drawTiles2_col 11 0 2 a b 0 d = None.
Proof.
  unfold drawTiles2_col, store. intros Hd.
  change (uint16 (uint16 (uint16 (uint16 (11 * 8) + 2) * 256)
                  + uint16 (uint16 (0 * 8) + 0))) with 23040.
  destruct (Z.ltb_spec 23040 (Z.of_nat (length d))); [lia |].
  now rewrite andb_false_r.
Qed.

Lemma drawTiles2_tile_past_the_end (mem : gmap Z Z) (d : list Z) :
  length d = Z.to_nat 23040 -> drawTiles2_tile ReadRegion mem 11 0 d = None.
Proof.
  intros Hd. unfold drawTiles2_tile, for_range. cbv zeta.
  change (seqZ 0 (8 - 0)) with ([0; 1] ++ 2 :: [3; 4; 5; 6; 7]).
  apply (for_each_None_at (fun d => length d = Z.to_nat 23040)); [| | exact Hd].
  - intros row s0 s1 _. apply drawTiles2_row_full.
  - intros s0 Hs0. unfold drawTiles2_row, for_range.
    destruct (load _ _) as [a |]; [| reflexivity].
    destruct (load _ _) as [b |]; [| reflexivity].
    change (seqZ 0 (8 - 0)) with ([] ++ 0 :: [1; 2; 3; 4; 5; 6; 7]).
    apply (for_each_None_at (fun d => length d = Z.to_nat 23040)); [| | exact Hs0].
    + intros col s1 s2 Hin. now apply elem_of_nil in Hin.
    + intros s1. apply drawTiles2_col_past_the_end.
Qed.

(** X17. [drawTiles2] cannot run to its end: whatever the memory and
    whatever [ReadRegion] returns, it panics, at the latest on the index
    23040 of the 23040-byte array, which it reaches in row 11 of the tile
    map. *)
Theorem drawTiles2_panics (lcd : LCD) (mem : gmap Z Z) :
  length (data lcd) = Z.to_nat 23040 ->
  drawTiles2 ReadRegion lcd mem = None.
Proof.
  intros Hd. unfold drawTiles2. unfold for_range at 1.
  replace (seqZ 0 (32 - 0)) with (seqZ 0 11 ++ 11 :: seqZ 12 20)
    by reflexivity.
  rewrite (for_each_None_at (fun d => length d = Z.to_nat 23040)); [reflexivity | | | exact Hd].
  - intros y s0 s1 _. unfold for_range.
    apply (for_each_preserves (fun d => length d = Z.to_nat 23040)).
    intros x s2 s3 _. apply drawTiles2_tile_full.
  - intros s0 Hs0. unfold for_range.
    replace (seqZ 0 (32 - 0)) with ([] ++ 0 :: seqZ 1 31) by reflexivity.
    apply (for_each_None_at (fun d => length d = Z.to_nat 23040)); [| | exact Hs0].
    + intros x s1 s2 Hin. now apply elem_of_nil in Hin.
    + intros s1. apply drawTiles2_tile_past_the_end.
Qed.

End WithReadRegion.

Lemma drawTiles2_panics_witness :
  length (data NewLCD) = Z.to_nat 23040 /\
  drawTiles2 (fun _ _ n => replicate (Z.to_nat n) 0) NewLCD ∅ = None.
Proof.
  split; [apply length_replicate |].
  apply (drawTiles2_panics (fun _ _ n => replicate (Z.to_nat n) 0) NewLCD ∅).
  apply length_replicate.
Defined.

End DrawTiles2.

(** ** More on the GL renderer *)

Section RenderMore.
Import Go Lcd Gl Palette.

Lemma renderPixel_drawable (im : Image) (x y pixel : Z) :
  renderPixel im x y pixel
  = if drawable pixel then Some (SetRGBA im x y (colourOf pixel)) else None.
Proof.
  destruct (decide (0 <= pixel < 256)) as [Hin | Hout].
  - destruct pixel as [| q | q]; [reflexivity | | lia].
    do 8 (destruct q as [q | q |]; try reflexivity); lia.
  - assert (drawable pixel = false) as ->.
    { unfold drawable.
      destruct (Z.leb_spec 0 pixel), (Z.ltb_spec pixel 256);
        try reflexivity; lia. }
    destruct pixel as [| q | q]; [lia | | reflexivity].
    do 6 (destruct q as [q | q |]; try reflexivity; try lia).
Qed.

Lemma At_SetRGBA_eq (im : Image) (x y : Z) (c : RGBA) :
  0 <= x < width im -> 0 <= y < height im ->
  At (SetRGBA im x y c) x y = c.
Proof.
  intros Hx Hy. unfold At, SetRGBA.
  destruct (Z.leb_spec 0 x), (Z.ltb_spec x (width im)),
    (Z.leb_spec 0 y), (Z.ltb_spec y (height im)); try lia.
  cbn. now rewrite lookup_insert_eq.
Qed.

Lemma At_SetRGBA_ne (im : Image) (x y x' y' : Z) (c : RGBA) :
  (x, y) <> (x', y') -> At (SetRGBA im x y c) x' y' = At im x' y'.
Proof.
  intros Hne. unfold At, SetRGBA.
  destruct (_ && _); [| reflexivity]. cbn. now rewrite lookup_insert_ne.
Qed.

Lemma SetRGBA_size (im : Image) (x y : Z) (c : RGBA) :
  width (SetRGBA im x y c) = width im /\
  height (SetRGBA im x y c) = height im.
Proof. unfold SetRGBA. now destruct (_ && _). Qed.

(** The body of the inner loop draws one pixel and keeps the others. *)
Lemma renderFrame_body_eq (d : list Z) (y x : Z) (im : Image) :
  length d = Z.to_nat 23040 ->
  Forall (fun p => drawable p = true) d ->
  0 <= y < 144 -> 0 <= x < 160 ->
  exists p, d !! index_of y x = Some p /\
            renderFrame_body d y x im = Some (SetRGBA im x y (colourOf p)).
Proof.
  intros Hlen Hd Hy Hx. unfold renderFrame_body, load, index_of.
  destruct (Z.leb_spec 0 (y * 160 + x)); [| lia].
  destruct (lookup_lt_is_Some_2 d (Z.to_nat (y * 160 + x)) ltac:(lia))
    as [p Hp].
  exists p. split; [exact Hp |]. rewrite Hp, renderPixel_drawable.
  rewrite Forall_lookup in Hd. now rewrite (Hd _ _ Hp).
Qed.

Lemma SetRGBA_keeps_pixel (d : list Z) (im : Image) (y x y' x' : Z)
    (p : Z) :
  width im = 160 -> height im = 144 ->
  0 <= y < 144 -> 0 <= x < 160 -> 0 <= y' < 144 -> 0 <= x' < 160 ->
  d !! index_of y x = Some p ->
  (forall q, d !! index_of y' x' = Some q -> At im x' y' = colourOf q) ->
  forall q, d !! index_of y' x' = Some q ->
    At (SetRGBA im x y (colourOf p)) x' y' = colourOf q.
Proof.
  intros Hw Hh Hy Hx Hy' Hx' Hp Hold q Hq.
  destruct (decide ((x, y) = (x', y'))) as [[= <- <-] | Hne].
  - rewrite At_SetRGBA_eq by lia. congruence.
  - rewrite At_SetRGBA_ne by exact Hne. now apply Hold.
Qed.

(** The two loops of [renderFrame] draw every pixel. *)
Lemma renderFrame_draws (d : list Z) :
  length d = Z.to_nat 23040 ->
  Forall (fun p => drawable p = true) d ->
  exists im, renderFrame d = Some im /\
    width im = 160 /\ height im = 144 /\
    forall x y p, 0 <= x < 160 -> 0 <= y < 144 ->
      d !! index_of y x = Some p -> At im x y = colourOf p.
Proof.
  intros Hlen Hd. unfold renderFrame. cbv zeta. unfold for_range at 1.
  pose (rows_done (done : list Z) (im : Image) :=
          width im = 160 /\ height im = 144 /\
          forall y x, y ∈ done -> 0 <= y < 144 -> 0 <= x < 160 ->
            forall q, d !! index_of y x = Some q -> At im x y = colourOf q).
  destruct (for_each_inv rows_done (seqZ 0 (144 - 0))
              (fun y => for_range 0 160 (fun x => renderFrame_body d y x))
              (NewRGBA 160 144))
    as (im & Hrun & Hw & Hh & Hall).
  - repeat split. intros y x Hin. now apply elem_of_nil in Hin.
  - intros done y rest im1 Hsplit (Hw1 & Hh1 & Hrows).
    pose proof (elem_of_range_split _ _ _ _ _ Hsplit) as Hy.
    pose (cols_done (cols : list Z) (im : Image) :=
            width im = 160 /\ height im = 144 /\
            (forall y' x, y' ∈ done -> 0 <= y' < 144 -> 0 <= x < 160 ->
               forall q, d !! index_of y' x = Some q ->
                 At im x y' = colourOf q) /\
            forall x, x ∈ cols -> 0 <= x < 160 ->
              forall q, d !! index_of y x = Some q -> At im x y = colourOf q).
    unfold for_range.
    destruct (for_each_inv cols_done (seqZ 0 (160 - 0))
                (fun x => renderFrame_body d y x) im1)
      as (im2 & Hrun2 & Hw2 & Hh2 & Hrows2 & Hcols2).
    + split; [exact Hw1 |]. split; [exact Hh1 |]. split; [exact Hrows |].
      intros x Hin. now apply elem_of_nil in Hin.
    + intros cols x rest' im3 Hsplit' (Hw3 & Hh3 & Hrows3 & Hcols3).
      pose proof (elem_of_range_split _ _ _ _ _ Hsplit') as Hx.
      destruct (renderFrame_body_eq d y x im3 Hlen Hd Hy Hx)
        as (p & Hp & Hbody).
      eexists. split; [exact Hbody |].
      destruct (SetRGBA_size im3 x y (colourOf p)) as [Hw4 Hh4].
      split; [congruence |]. split; [congruence |]. split.
      * intros y' x' Hin Hy' Hx'.
        apply (SetRGBA_keeps_pixel d); auto.
      * intros x' Hin Hx'.
        apply elem_of_app in Hin as [Hin | Hin].
        -- apply (SetRGBA_keeps_pixel d); auto.
        -- apply list_elem_of_singleton in Hin as ->.
           intros q Hq. rewrite At_SetRGBA_eq by lia. congruence.
    + exists im2. split; [exact Hrun2 |].
      split; [exact Hw2 |]. split; [exact Hh2 |].
      intros y' x Hin Hy' Hx.
      apply elem_of_app in Hin as [Hin | Hin]; [now apply Hrows2 |].
      apply list_elem_of_singleton in Hin as ->.
      apply Hcols2; [| exact Hx]. apply elem_of_seqZ. lia.
  - exists im. split; [exact Hrun |]. split; [exact Hw |].
    split; [exact Hh |].
    intros x y p Hx Hy. apply Hall; [| exact Hy | exact Hx].
    apply elem_of_seqZ. lia.
Qed.

(** X18. On frame data of drawable bytes [renderFrame] returns a 160 x 144
    image in which the pixel ([x], [y]) has the colour of the byte
    [y * 160 + x] of the frame data. *)
Theorem renderFrame_pixels (d : list Z) :
  length d = Z.to_nat 23040 ->
  Forall (fun p => drawable p = true) d ->
  exists im, renderFrame d = Some im /\
    width im = 160 /\ height im = 144 /\
    forall x y p, 0 <= x < 160 -> 0 <= y < 144 ->
      d !! index_of y x = Some p -> At im x y = colourOf p.
Proof. apply renderFrame_draws. Qed.

Lemma renderFrame_pixels_witness :
  length (replicate (Z.to_nat 23040) 0x21) = Z.to_nat 23040 /\
  Forall (fun p => drawable p = true) (replicate (Z.to_nat 23040) 0x21) /\
  exists im, renderFrame (replicate (Z.to_nat 23040) 0x21) = Some im /\
    width im = 160 /\ height im = 144 /\
    forall x y p, 0 <= x < 160 -> 0 <= y < 144 ->
      replicate (Z.to_nat 23040) 0x21 !! index_of y x = Some p ->
      At im x y = colourOf p.
Proof.
  assert (Forall (fun p => drawable p = true)
            (replicate (Z.to_nat 23040) 0x21)) as Hd.
  { apply Forall_replicate. reflexivity. }
  split; [apply length_replicate |]. split; [exact Hd |].
  apply (renderFrame_pixels (replicate (Z.to_nat 23040) 0x21));
    [apply length_replicate | exact Hd].
Defined.

End RenderMore.

Section RenderErrors.
Import Go Mem Lcd Gl Palette.

(** [renderFrame] panics as soon as one byte has no case. *)
Lemma renderFrame_bad_byte (d : list Z) (y x p : Z) :
  0 <= y < 144 -> 0 <= x < 160 ->
  d !! index_of y x = Some p -> drawable p = false ->
  renderFrame d = None.
Proof.
  intros Hy Hx Hp Hbad. unfold renderFrame. cbv zeta. unfold for_range at 1.
  assert (seqZ 0 (144 - 0) = seqZ 0 y ++ y :: seqZ (y + 1) (144 - y - 1))
    as ->.
  { replace (144 - 0) with (y + (144 - y)) by lia.
    rewrite seqZ_app by lia.
    rewrite (seqZ_cons (0 + y)) by lia. repeat f_equal; lia. }
  apply (for_each_None_at (fun _ => True)); [auto | | exact I].
  intros im _. unfold for_range.
  assert (seqZ 0 (160 - 0) = seqZ 0 x ++ x :: seqZ (x + 1) (160 - x - 1))
    as ->.
  { replace (160 - 0) with (x + (160 - x)) by lia.
    rewrite seqZ_app by lia.
    rewrite (seqZ_cons (0 + x)) by lia. repeat f_equal; lia. }
  apply (for_each_None_at (fun _ => True)); [auto | | exact I].
  intros im' _. unfold renderFrame_body, load. fold (index_of y x).
  destruct (Z.leb_spec 0 (y * 160 + x)); [| lia].
  now rewrite Hp, renderPixel_drawable, Hbad.
Qed.

(** X19. [renderFrame] panics exactly when one of the 23040 bytes of the
    frame data is a byte that [renderPixel] has no case for. *)
Theorem renderFrame_panics_iff (d : list Z) :
  length d = Z.to_nat 23040 ->
  renderFrame d = None <-> exists i p, d !! i = Some p /\ drawable p = false.
Proof.
  intros Hlen. split.
  - intros Hnone.
    destruct (decide (Forall (fun p => drawable p = true) d)) as [Hd | Hd].
    + destruct (renderFrame_draws d Hlen Hd) as (im & Him & _). congruence.
    + apply (not_Forall_Exists _) in Hd.
      apply Exists_exists in Hd as (p & Hin & Hbad).
      apply list_elem_of_lookup in Hin as [i Hi].
      exists i, p. split; [exact Hi |].
      apply not_true_is_false. exact Hbad.
  - intros (i & p & Hi & Hbad).
    pose proof (lookup_lt_Some _ _ _ Hi) as Hlt.
    rewrite <- (index_of_div_mod i) in Hi.
    assert (0 <= Z.of_nat i `mod` 160 < 160) by (apply Z.mod_pos_bound; lia).
    assert (0 <= Z.of_nat i / 160 < 144).
    { split; [apply Z.div_pos; lia | apply Z.div_lt_upper_bound; lia]. }
    now apply (renderFrame_bad_byte d (Z.of_nat i / 160) (Z.of_nat i `mod` 160) p).
Qed.

Lemma renderFrame_panics_iff_witness :
  length (<[7%nat := 0x04]> (replicate (Z.to_nat 23040) 0)) = Z.to_nat 23040 /\
  renderFrame (<[7%nat := 0x04]> (replicate (Z.to_nat 23040) 0)) = None.
Proof.
  assert (length (<[7%nat := 0x04]> (replicate (Z.to_nat 23040) 0))
          = Z.to_nat 23040) as Hlen
    by (rewrite length_insert; apply length_replicate).
  split; [exact Hlen |].
  apply (renderFrame_panics_iff _ Hlen).
  exists 7%nat, 0x04. split; [| reflexivity].
  apply list_lookup_insert_eq. rewrite length_replicate. lia.
Defined.

Lemma drawable_cases (p : Z) :
  drawable p = true ->
  In p [0x00; 0x01; 0x02; 0x03; 0x10; 0x11; 0x12; 0x13;
        0x20; 0x21; 0x22; 0x23; 0x30; 0x31; 0x32; 0x33].
Proof.
  intros Hd.
  assert (0 <= p < 256) as Hp.
  { unfold drawable in Hd.
    destruct (Z.leb_spec 0 p), (Z.ltb_spec p 256); try discriminate; lia. }
  destruct p as [| q | q]; [now left | | lia].
  do 8 (destruct q as [q | q |]; try discriminate Hd;
        try (cbn; tauto)); lia.
Qed.

(** X20. The palette tells the drawable bytes apart: two different bytes
    drawn at a point of the image leave different colours there. *)
Theorem renderPixel_injective (im im1 im2 : Image) (x y p q : Z) :
  0 <= x < width im -> 0 <= y < height im ->
  renderPixel im x y p = Some im1 ->
  renderPixel im x y q = Some im2 ->
  p <> q ->
  At im1 x y <> At im2 x y.
Proof.
  intros Hx Hy Hp Hq Hne.
  rewrite renderPixel_drawable in Hp, Hq.
  destruct (drawable p) eqn:Hdp; [| discriminate].
  destruct (drawable q) eqn:Hdq; [| discriminate].
  injection Hp as <-. injection Hq as <-.
  rewrite !At_SetRGBA_eq by lia.
  apply drawable_cases in Hdp. apply drawable_cases in Hdq.
  cbn [In] in Hdp, Hdq.
  repeat (destruct Hdp as [<- | Hdp]; [| try contradiction]);
    repeat (destruct Hdq as [<- | Hdq]; [| try contradiction]);
    first [ congruence | discriminate ].
Qed.

Lemma renderPixel_injective_witness :
  let im := NewRGBA 160 144 in
  let im1 := SetRGBA im 3 5 (mkRGBA 0x33 0x00 0x00 0xff) in
  let im2 := SetRGBA im 3 5 (mkRGBA 0x33 0x33 0x33 0xff) in
  0 <= 3 < width im /\ 0 <= 5 < height im /\
  renderPixel im 3 5 0x13 = Some im1 /\
  renderPixel im 3 5 0x03 = Some im2 /\
  0x13 <> 0x03 /\
  At im1 3 5 <> At im2 3 5.
Proof.
  cbv zeta.
  assert (0 <= 3 < width (NewRGBA 160 144)) as Hx by (cbn; lia).
  assert (0 <= 5 < height (NewRGBA 160 144)) as Hy by (cbn; lia).
  assert (0x13 <> 0x03) as Hne by discriminate.
  split; [exact Hx |]. split; [exact Hy |].
  split; [reflexivity |]. split; [reflexivity |]. split; [exact Hne |].
  exact (renderPixel_injective (NewRGBA 160 144) _ _ 3 5 0x13 0x03
           Hx Hy eq_refl eq_refl Hne).
Defined.

(** X21. With the tile data area 0x8000-0x97FF at zero, as with a ROM that
    never writes to video memory, the frame data is all zero and the image
    that [renderFrame] makes of it is white everywhere. *)
Theorem blank_tiles_white_frame (lcd : LCD) (mem : gmap Z Z) :
  length (data lcd) = Z.to_nat 23040 ->
  (forall addr, 0x8000 <= addr < 0x9800 -> Read mem addr = 0) ->
  exists d im,
    FrameData lcd mem = Some d /\
    d = replicate (Z.to_nat 23040) 0 /\
    renderFrame d = Some im /\
    forall x y, 0 <= x < 160 -> 0 <= y < 144 -> At im x y = white.
Proof.
  intros Hlen Hzero.
  destruct (FrameData_lookup lcd mem Hlen) as (d & Hd & Hlend & Hall).
  assert (forall y x, 0 <= y < 144 -> 0 <= x < 160 ->
            drawTiles_pixel mem y x = Some 0) as Hpix.
  { intros y x Hy Hx. unfold drawTiles_pixel. cbv zeta.
    rewrite !Z.add_0_r, (uint8_small x), (uint8_small y) by lia.
    unfold div, rem. rewrite !Z.quot_div_nonneg, !Z.rem_mod_nonneg by lia.
    assert (0 <= x `mod` 8 < 8) as Hox by (apply Z.mod_pos_bound; lia).
    assert (0 <= y `mod` 8 < 8) as Hoy by (apply Z.mod_pos_bound; lia).
    pose proof (tileDataAddr_tile mem (x / 8) (y / 8)) as Htile.
    cbv zeta in Htile. destruct Htile as (Htile & _).
    set (tile := tileDataAddr mem (x / 8) (y / 8)) in *.
    rewrite (uint16_small (y `mod` 8)) by lia.
    rewrite (uint16_small (tile + y `mod` 8 * 2)) by lia.
    rewrite pixel_bits by lia.
    rewrite (uint16_small (tile + y `mod` 8 * 2 + 1)) by lia.
    rewrite !Hzero by lia. now rewrite Z.bits_0. }
  assert (d = replicate (Z.to_nat 23040) 0) as Hrep.
  { apply list_eq. intros i.
    destruct (decide (i < Z.to_nat 23040)%nat) as [Hi | Hi].
    - rewrite lookup_replicate_2 by exact Hi.
      rewrite <- (index_of_div_mod i).
      assert (0 <= Z.of_nat i `mod` 160 < 160)
        by (apply Z.mod_pos_bound; lia).
      assert (0 <= Z.of_nat i / 160 < 144).
      { split; [apply Z.div_pos; lia | apply Z.div_lt_upper_bound; lia]. }
      rewrite Hall by lia. now apply Hpix.
    - rewrite !lookup_ge_None_2; [reflexivity | |];
        rewrite ?length_replicate; lia. }
  assert (Forall (fun p => drawable p = true) d) as Hdraw.
  { rewrite Hrep. now apply Forall_replicate. }
  destruct (renderFrame_draws d Hlend Hdraw) as (im & Him & _ & _ & Hcol).
  exists d, im. split; [exact Hd |]. split; [exact Hrep |].
  split; [exact Him |].
  intros x y Hx Hy. rewrite (Hcol x y 0 Hx Hy); [reflexivity |].
  rewrite Hall by lia. now apply Hpix.
Qed.

Lemma blank_tiles_white_frame_witness :
  length (data NewLCD) = Z.to_nat 23040 /\
  exists d im,
    FrameData NewLCD ∅ = Some d /\
    d = replicate (Z.to_nat 23040) 0 /\
    renderFrame d = Some im /\
    forall x y, 0 <= x < 160 -> 0 <= y < 144 -> At im x y = white.
Proof.
  split; [apply length_replicate |].
  apply (blank_tiles_white_frame NewLCD ∅); [apply length_replicate |].
  intros addr _. reflexivity.
Defined.

End RenderErrors.

(** ** The audio clock *)

Section AudioClock.
Import Audio.
Context {Out : Type} (takeSample : Out -> Out).
Context (unrepresentable : spec_float -> Z).

Local Abbreviation tickClock := (Audio.tickClock takeSample unrepresentable).
Local Abbreviation EndMachineCycle :=
  (Audio.EndMachineCycle takeSample unrepresentable).
Local Abbreviation due := (Audio.due unrepresentable).
Local Abbreviation samples := (Audio.samples unrepresentable).

(** The tick after a clock depends on the tick before it only. *)
Lemma tickClock_tick (a : Audio) :
  0 <= tick a < 2 ^ 64 ->
  tick (tickClock a) = (if 4194304 <=? tick a then 0 else tick a) + 1.
Proof.
  intros Ht. unfold Audio.tickClock, tick512, tick44100. cbv zeta.
  destruct (Z.leb_spec 4194304 (tick a)); cbn [tick sample out];
    repeat match goal with
      | |- context [if ?c then _ else _] => destruct c
      end;
    cbn [tick]; first [reflexivity | apply Z.mod_small; lia].
Qed.

(** X22. After a clock the tick is between 1 and 4194304, whatever it was
    before: the counter of clock cycles never leaves one second. *)
Theorem tickClock_tick_range (a : Audio) :
  0 <= tick a < 2 ^ 64 ->
  1 <= tick (tickClock a) <= 4194304.
Proof.
  intros Ht. rewrite tickClock_tick by exact Ht.
  destruct (Z.leb_spec 4194304 (tick a)); lia.
Qed.

Lemma iter_EndMachineCycle (n : nat) (a : Audio) :
  Nat.iter n EndMachineCycle a = Nat.iter (4 * n) tickClock a.
Proof.
  induction n as [| n IH]; [reflexivity |].
  replace (4 * S n)%nat with (S (S (S (S (4 * n))))) by lia.
  rewrite !Nat.iter_succ, IH. reflexivity.
Qed.

Lemma clocks_tick (n : nat) (a : Audio) :
  tick a = 0 -> (1 <= n)%nat ->
  tick (Nat.iter n tickClock a) = (Z.of_nat n - 1) `mod` 4194304 + 1.
Proof.
  intros H0 Hn. induction n as [| n IH]; [lia |].
  rewrite Nat.iter_succ. destruct n as [| n].
  - change (Nat.iter 0 tickClock a) with a.
    rewrite tickClock_tick by lia. rewrite H0. reflexivity.
  - specialize (IH ltac:(lia)).
    pose proof (Z.mod_pos_bound (Z.of_nat (S n) - 1) 4194304 ltac:(lia)).
    rewrite tickClock_tick by lia. rewrite IH.
    destruct (Z.leb_spec 4194304
                ((Z.of_nat (S n) - 1) `mod` 4194304 + 1));
      Z.div_mod_to_equations; lia.
Qed.

(** X23. From a new [Audio] (tick 0), after [n] machine cycles, one or
    more, the tick is [(4 * n - 1) mod 4194304 + 1]: it counts the clock
    cycles of the machine cycles, four each, and starts again after
    4194304. *)
Theorem EndMachineCycle_tick (n : nat) (a : Audio) :
  tick a = 0 -> (1 <= n)%nat ->
  tick (Nat.iter n EndMachineCycle a)
  = (4 * Z.of_nat n - 1) `mod` 4194304 + 1.
Proof.
  intros H0 Hn. rewrite iter_EndMachineCycle, clocks_tick by lia.
  do 2 f_equal. lia.
Qed.

(** A clock before the next sample is due. *)
Lemma tickClock_wait (a : Audio) :
  0 <= tick a < 4194304 -> tick a <> due (sample a) ->
  tickClock a = {| tick := tick a + 1; sample := sample a; out := out a |}.
Proof.
  intros Ht Hdue. unfold Audio.tickClock, tick512, tick44100. cbv zeta.
  destruct (Z.leb_spec 4194304 (tick a)); [lia |].
  unfold Audio.due in Hdue.
  destruct (tick a `mod` period512hz =? 0);
    match goal with
    | |- context [tick a =? ?d] => destruct (Z.eqb_spec (tick a) d)
    end; try contradiction;
    rewrite Z.mod_small by lia; reflexivity.
Qed.

(** The clock at which the next sample is due. *)
Lemma tickClock_sample (a : Audio) :
  0 <= tick a < 4194304 -> tick a = due (sample a) ->
  tickClock a = {| tick := tick a + 1; sample := f64add (sample a) one;
                   out := takeSample (out a) |}.
Proof.
  intros Ht Hdue. unfold Audio.tickClock, tick512, tick44100. cbv zeta.
  destruct (Z.leb_spec 4194304 (tick a)); [lia |].
  unfold Audio.due in Hdue.
  destruct (tick a `mod` period512hz =? 0);
    match goal with
    | |- context [tick a =? ?d] => destruct (Z.eqb_spec (tick a) d)
    end; try contradiction;
    cbn [tick sample out]; rewrite Z.mod_small by lia; reflexivity.
Qed.

Lemma clocks_wait (n : nat) (a : Audio) :
  0 <= tick a ->
  tick a + Z.of_nat n <= due (sample a) ->
  tick a + Z.of_nat n <= 4194304 ->
  Nat.iter n tickClock a
  = {| tick := tick a + Z.of_nat n; sample := sample a; out := out a |}.
Proof.
  revert a. induction n as [| n IH]; intros a H0 Hdue Hmax.
  - destruct a. cbn. f_equal. lia.
  - rewrite Nat.iter_succ_r, tickClock_wait by lia.
    rewrite IH; cbn [tick sample out]; try lia. f_equal. lia.
Qed.

(** The clocks that take the next [n] samples. *)
Lemma clocks_samples (n : nat) (s s' : spec_float) (prev last : Z)
    (a : Audio) :
  samples n s prev = Some (s', last) ->
  sample a = s -> tick a = prev + 1 -> -1 <= prev ->
  prev <= last /\
  Nat.iter (Z.to_nat (last - prev)) tickClock a
  = {| tick := last + 1; sample := s';
       out := Nat.iter n takeSample (out a) |}.
Proof.
  revert s prev a. induction n as [| n IH]; intros s prev a Hs Hsample Ht Hp.
  - injection Hs as <- <-. split; [lia |].
    rewrite Z.sub_diag. destruct a. cbn in *. now subst.
  - cbn [Audio.samples] in Hs. cbv zeta in Hs. fold (due s) in Hs.
    destruct (Z.ltb_spec prev (due s)); [| discriminate].
    destruct (Z.ltb_spec (due s) 4194304); [| discriminate].
    cbn [andb] in Hs.
    pose (b := {| tick := due s + 1; sample := f64add s one;
                  out := takeSample (out a) |}).
    assert (-1 <= due s) as Hp' by lia.
    destruct (IH (f64add s one) (due s) b Hs eq_refl eq_refl Hp')
      as [Hlast Hrun].
    split; [lia |].
    replace (Z.to_nat (last - prev))
      with (Z.to_nat (last - due s) + (1 + Z.to_nat (due s - tick a)))%nat
      by lia.
    rewrite Nat.iter_add. rewrite (Nat.iter_add 1).
    rewrite (clocks_wait (Z.to_nat (due s - tick a)) a)
      by (rewrite ?Hsample; lia).
    change (Nat.iter 1 tickClock ?x) with (tickClock x).
    rewrite tickClock_sample;
      cbn [tick sample out]; rewrite ?Hsample; try lia.
    replace (tick a + Z.of_nat (Z.to_nat (due s - tick a)) + 1)
      with (due s + 1) by lia.
    fold b. rewrite Hrun. cbn [out b]. f_equal.
    symmetry. apply Nat.iter_succ_r.
Qed.

(** The samples of one second are due one after the other. *)
Lemma samples_of_a_second :
  samples (Z.to_nat 44100) (S754_zero false) (-1)
  = Some (f64 44100, 4194209)
  /\ due (f64 44100) = 4194304.
Proof. split; vm_compute; reflexivity. Qed.

(** X24. One second of a new [Audio] (tick 0, sample counter 0), that is
    1048576 machine cycles, takes exactly 44100 samples: at its end the
    tick is 4194304, the sample counter 44100, and [takeSample] has run
    44100 times. *)
Theorem one_second_of_samples (a : Audio) :
  tick a = 0 -> sample a = S754_zero false ->
  Nat.iter (Z.to_nat 1048576) EndMachineCycle a
  = {| tick := 4194304; sample := f64 44100;
       out := Nat.iter (Z.to_nat 44100) takeSample (out a) |}.
Proof.
  intros Ht Hs. rewrite iter_EndMachineCycle.
  destruct samples_of_a_second as [Hsamples Hdue].
  assert (tick a = -1 + 1) as Ht' by lia.
  assert (-1 <= -1) as Hp by lia.
  destruct (clocks_samples _ _ _ _ _ a Hsamples Hs Ht' Hp) as [_ Hrun].
  replace (4 * Z.to_nat 1048576)%nat
    with (Z.to_nat 94 + Z.to_nat (4194209 - -1))%nat by lia.
  rewrite Nat.iter_add, Hrun.
  rewrite clocks_wait; cbn [tick sample out]; rewrite ?Hdue; try lia.
  reflexivity.
Qed.

End AudioClock.

Section AudioClockAtRest.
Import Audio.

Lemma tickClock_tick_range_witness :
  0 <= tick {| tick := 4194304; sample := f64 44100; out := tt |} < 2 ^ 64 /\
  1 <= tick (tickClock (fun u => u) (fun _ => 0)
               {| tick := 4194304; sample := f64 44100; out := tt |})
    <= 4194304.
Proof.
  assert (0 <= tick {| tick := 4194304; sample := f64 44100; out := tt |}
          < 2 ^ 64) as Ht by (cbn; lia).
  split; [exact Ht |].
  exact (tickClock_tick_range (fun u => u) (fun _ => 0) _ Ht).
Defined.

Lemma EndMachineCycle_tick_witness :
  tick {| tick := 0; sample := S754_zero false; out := tt |} = 0 /\
  (1 <= 3)%nat /\
  tick (Nat.iter 3 (EndMachineCycle (fun u => u) (fun _ => 0))
          {| tick := 0; sample := S754_zero false; out := tt |})
  = (4 * Z.of_nat 3 - 1) `mod` 4194304 + 1.
Proof.
  split; [reflexivity |]. split; [lia |].
  apply (EndMachineCycle_tick (fun u => u) (fun _ => 0) 3); [reflexivity | lia].
Defined.

Lemma one_second_of_samples_witness :
  tick {| tick := 0; sample := S754_zero false; out := 0%nat |} = 0 /\
  sample {| tick := 0; sample := S754_zero false; out := 0%nat |}
  = S754_zero false /\
  Nat.iter (Z.to_nat 1048576) (EndMachineCycle S (fun _ => 0))
    {| tick := 0; sample := S754_zero false; out := 0%nat |}
  = {| tick := 4194304; sample := f64 44100;
       out := Nat.iter (Z.to_nat 44100) S 0%nat |}.
Proof.
  split; [reflexivity |]. split; [reflexivity |].
  apply (one_second_of_samples S (fun _ => 0)); reflexivity.
Defined.

End AudioClockAtRest.
